(** * The vision service of the robot development kit

    A shallow embedding of [services/vision] (the file defining
    [visionService], [reconfigurableVision], [FromRobot] and
    [WrapWithReconfigurable]) together with the statements the
    specification makes about it.

    Go values are modelled as follows.  An [error] is an inductive value,
    one constructor per place the code builds one; a function returning
    [(T, error)] returns [result T]; a function returning only [error]
    returns [option error] ([None] is Go's [nil]).  A method with a pointer
    receiver takes the receiver's state and returns the new state next to
    its result.  [context.Context] and the tracing spans carry no data the
    statements observe and are left out. *)

From Stdlib Require Import ZArith QArith Lia.
From stdpp Require Import gmap strings list fin_maps sorting.

Local Open Scope string_scope.
Local Open Scope list_scope.

(** ** Errors *)

(** The categories of the specification's error taxonomy. *)
Inductive ErrorKind : Type :=
  | NotFound
  | UnimplementedInterface
  | TypeMismatch
  | ValidationFailure
  | UpstreamFailure.

(** [resource.Subtype] and [resource.Name]. *)
Record Subtype_ : Type := NewSubtype {
  ResourceNamespace : string;
  ResourceType : string;
  ResourceSubtype : string
}.

Record Name_ : Type := NameFromSubtype {
  NameSubtype : Subtype_;
  NameName : string
}.

(** One constructor per error the code under study builds; the payload is
    what the message is formatted from. *)
Inductive error : Type :=
  | ErrResourceNotFound (n : Name_)
      (* utils.NewResourceNotFoundError(n) *)
  | ErrUnimplementedInterface (expected actual : string)
      (* utils.NewUnimplementedInterfaceError(expected, actual): both printed with %T *)
  | ErrUnexpectedType (expected actual : string)
      (* utils.NewUnexpectedTypeError(expected, actual): both printed with %T *)
  | ErrNoSchema (modelType : string)
      (* errors.Errorf("do not have a schema for model type %q", modelType) *)
  | ErrNoSuchModel (name : string)
      (* the registry's lookup and removal of an absent name *)
  | ErrModelTypeNotImplemented (tag : string)
      (* registration of a config whose type-tag has no factory *)
  | ErrModelKind (requested : string)
      (* a model asked for an adapter of another kind *)
  | ErrUpstream (msg : string).
      (* a failure of a collaborator: camera, model, release hook *)

Definition errorKind (e : error) : ErrorKind :=
  match e with
  | ErrResourceNotFound _ => NotFound
  | ErrUnimplementedInterface _ _ => UnimplementedInterface
  | ErrUnexpectedType _ _ => TypeMismatch
  | ErrNoSchema _ => NotFound
  | ErrNoSuchModel _ => NotFound
  | ErrModelTypeNotImplemented _ => ValidationFailure
  | ErrModelKind _ => TypeMismatch
  | ErrUpstream _ => UpstreamFailure
  end.

(** What an error message names. *)
Definition errorNames (e : error) : list string :=
  match e with
  | ErrResourceNotFound n => [NameName n]
  | ErrUnimplementedInterface ex ac => [ex; ac]
  | ErrUnexpectedType ex ac => [ex; ac]
  | ErrNoSchema t => [t]
  | ErrNoSuchModel n => [n]
  | ErrModelTypeNotImplemented t => [t]
  | ErrModelKind k => [k]
  | ErrUpstream _ => []
  end.

Inductive result (A : Type) : Type :=
  | Ok (a : A)
  | Err (e : error).
Arguments Ok {A} a.
Arguments Err {A} e.

Definition isOk {A} (r : result A) : bool :=
  match r with Ok _ => true | Err _ => false end.

(** ** Opaque data of the collaborators *)

(** Images, detections, 3-D objects and JSON schemas are produced and
    consumed by collaborators only; the service passes them through.  They
    are identified by a handle. *)
Definition Image : Type := nat.
Definition Detection : Type := nat.
Definition Object : Type := nat.
Definition Schema : Type := string.

(** A classification is a label with a confidence score.  The score is a
    [float64] in the code; a finite float is the rational it denotes, and
    the order of finite floats is the order of these rationals. *)
Record Classification : Type := NewClassification {
  Label : string;
  Score : Q
}.
Definition Classifications : Type := list Classification.

(** A camera as the service uses it: [camera.ReadImage] yields one frame or
    fails. *)
Record Camera : Type := {
  CameraName : string;
  ReadImage : result Image
}.

(** [robot.Robot] seen through the resources it resolves.  [V] is what a
    resolved resource looks like to the accessor that asked for it. *)
Record robot (V : Type) : Type := {
  ResourceByName : Name_ -> result V
}.
Arguments ResourceByName {V} r n.

(** What [camera.FromRobot] sees of a resource: it satisfies
    [camera.Camera] or it is a value of some other Go type. *)
Inductive cameraResource : Type :=
  | IsCamera (c : Camera)
  | NotCamera (goType : string).

(** ** Model configuration *)

(** The open key-value parameters of a config ([config.AttributeMap]). *)
Inductive attribute : Type :=
  | AttrString (s : string)
  | AttrInt (z : Z)
  | AttrFloat (q : Q).

Record VisModelConfig : Type := {
  Name : string;
  Type_ : string;
  Parameters : list (string * attribute)
}.

Definition VisModelType : Type := string.

(** ** The model registry *)

Inductive ModelKind : Type := Detector | Classifier | Segmenter.

Global Instance ModelKind_eq_dec : EqDecision ModelKind.
Proof. solve_decision. Defined.

(** The executable adapter of a model: a closed tagged union over the kind. *)
Inductive executable : Type :=
  | DetectorFn (f : Image -> result (list Detection))
  | ClassifierFn (f : Image -> result Classifications)
  | SegmenterFn (f : Camera -> result (list Object)).

(** Modelled from the spec: the registry entry [registeredModel] (its
    declaration is in the registry file, which is not part of the sources
    at hand).  Section 3 gives a model a name, a kind, configuration
    parameters and an executable adapter; section 4.4 adds the release hook
    of a model that holds external resources.  [Closer = None]: no hook;
    [Closer = Some r]: invoking the hook returns [r]. *)
Record registeredModel : Type := {
  ModelName : string;
  ModelParameters : list (string * attribute);
  Model : executable;
  Closer : option (option error)
}.

Definition kindOf (x : executable) : ModelKind :=
  match x with
  | DetectorFn _ => Detector
  | ClassifierFn _ => Classifier
  | SegmenterFn _ => Segmenter
  end.

Definition ModelKindOf (m : registeredModel) : ModelKind := kindOf (Model m).

(** Modelled from the spec: the type-directed adapters of section 4.4,
    which fail with a type mismatch when the kind is not the requested
    one. *)
Definition toDetector (m : registeredModel) : result (Image -> result (list Detection)) :=
  match Model m with
  | DetectorFn f => Ok f
  | _ => Err (ErrModelKind "detector")
  end.

Definition toClassifier (m : registeredModel) : result (Image -> result Classifications) :=
  match Model m with
  | ClassifierFn f => Ok f
  | _ => Err (ErrModelKind "classifier")
  end.

Definition toSegmenter (m : registeredModel) : result (Camera -> result (list Object)) :=
  match Model m with
  | SegmenterFn f => Ok f
  | _ => Err (ErrModelKind "segmenter")
  end.

(** [modelMap] is a Go map from model name to entry. *)
Abbreviation modelMap := (gmap string registeredModel).

(** Modelled from the spec: [modelLookup] (section 4.4, [Lookup]): the
    entry of the name, [NotFound] if there is none. *)
Definition modelLookup (name : string) (mm : modelMap) : result registeredModel :=
  match mm !! name with
  | Some m => Ok m
  | None => Err (ErrNoSuchModel name)
  end.

(** Modelled from the spec: [modelNames], the names of all entries.  Go
    ranges over a map in an unspecified order; the model enumerates in the
    order of [map_to_list], and the statements below that depend on the
    order are proved for every enumeration without repetition. *)
Definition modelNames (mm : modelMap) : list string := (map_to_list mm).*1.

Definition hasKind (k : ModelKind) (mm : modelMap) (name : string) : bool :=
  match mm !! name with
  | Some m => bool_decide (ModelKindOf m = k)
  | None => false
  end.

(** Modelled from the spec: the name lists per kind of section 6. *)
Definition DetectorNames (mm : modelMap) : list string :=
  List.filter (hasKind Detector mm) (modelNames mm).
Definition ClassifierNames (mm : modelMap) : list string :=
  List.filter (hasKind Classifier mm) (modelNames mm).
Definition SegmenterNames (mm : modelMap) : list string :=
  List.filter (hasKind Segmenter mm) (modelNames mm).

(** Modelled from the spec: [removeVisModel] (section 4.4, [RemoveModel]):
    "deletes the entry, invoking a release hook if the model holds external
    resources; fails with NotFound if absent".  A hook that fails makes the
    removal fail, and the entry is then kept. *)
Definition removeVisModel (name : string) (mm : modelMap) : option error * modelMap :=
  match mm !! name with
  | None => (Some (ErrNoSuchModel name), mm)
  | Some m =>
      match Closer m with
      | Some (Some err) => (Some err, mm)
      | _ => (None, delete name mm)
      end
  end.

(** A factory builds the adapter and the release hook of a model from its
    config; it may consult the registry (a segmenter made from a detector
    looks the detector up) and it may fail. *)
Definition factory : Type :=
  modelMap -> VisModelConfig -> result (executable * option (option error)).

(** Modelled from the spec: [TopN] of [classification.Classifications]
    (section 4.5): the entries by descending confidence, cut to
    [min(N, available)].  The spec leaves the order of entries of equal
    confidence open; here they keep the order of the input. *)
Fixpoint insertByScore (c : Classification) (cc : Classifications) : Classifications :=
  match cc with
  | [] => [c]
  | d :: rest =>
      if Qle_bool (Score d) (Score c)
      then c :: d :: rest
      else d :: insertByScore c rest
  end.

Definition sortByScore (cc : Classifications) : Classifications :=
  foldr insertByScore [] cc.

Definition TopN (n : Z) (cc : Classifications) : result Classifications :=
  Ok (firstn (Z.to_nat (Z.min n (Z.of_nat (length cc)))) (sortByScore cc)).

(** The order of a ranked output: no entry has a higher confidence than
    an entry before it. *)
Definition byDescendingScore (a b : Classification) : Prop := (Score b <= Score a)%Q.

(** ** The process-wide tables *)

(** The package keeps three things in package-level variables that are
    declared next to the registry: the type-tag of the segmenter built from
    a detector, the factory of each type-tag, and the parameter schema of
    each type-tag (a map to [*jsonschema.Schema], so an entry may hold
    [nil], here [None]).  The code below takes them as they are at the time
    of the call. *)
Record tables : Type := {
  DetectorSegmenter : VisModelType;
  modelFactories : gmap string factory;
  RegisteredModelParameterSchemas : gmap string (option Schema)
}.

(** [Attributes]: the configs handed to a registration. *)
Record Attributes : Type := {
  ModelRegistry : list VisModelConfig
}.

(** Modelled from the spec: [registerNewVisModels] (section 4.4,
    [RegisterModels]): "for each config in order, looks up a process-wide
    factory keyed by type-tag; unknown tag fails with ValidationFailure
    naming the tag; otherwise constructs the model and inserts it"; a
    failure leaves what was inserted before it. *)
Fixpoint registerConfigs (T : tables) (mm : modelMap) (cfgs : list VisModelConfig)
  : option error * modelMap :=
  match cfgs with
  | [] => (None, mm)
  | attr :: rest =>
      match modelFactories T !! Type_ attr with
      | None => (Some (ErrModelTypeNotImplemented (Type_ attr)), mm)
      | Some build =>
          match build mm attr with
          | Err e => (Some e, mm)
          | Ok (x, closer) =>
              registerConfigs T
                (<[Name attr := {| ModelName := Name attr;
                                   ModelParameters := Parameters attr;
                                   Model := x;
                                   Closer := closer |}]> mm)
                rest
          end
      end
  end.

Definition registerNewVisModels (T : tables) (mm : modelMap) (attrs : Attributes)
  : option error * modelMap :=
  registerConfigs T mm (ModelRegistry attrs).

(** ** The vision service *)

(** [camera.Named] and the vision package's [Named]. *)
Definition ResourceNamespaceRDK : string := "rdk".
Definition ResourceTypeComponent : string := "component".
Definition ResourceTypeService : string := "service".

Definition SubtypeName : string := "vision".
Definition Subtype : Subtype_ :=
  NewSubtype ResourceNamespaceRDK ResourceTypeService SubtypeName.
Definition Named (name : string) : Name_ := NameFromSubtype Subtype name.

Definition camera_Subtype : Subtype_ :=
  NewSubtype ResourceNamespaceRDK ResourceTypeComponent "camera".
Definition camera_Named (name : string) : Name_ := NameFromSubtype camera_Subtype name.

(** Modelled from the spec: [camera.FromRobot] (sections 4.2 and 4.5): the
    upstream source is resolved by name and fails with NotFound or
    UnimplementedInterface as every accessor does. *)
Definition camera_FromRobot (r : robot cameraResource) (name : string) : result Camera :=
  match ResourceByName r (camera_Named name) with
  | Err _ => Err (ErrResourceNotFound (camera_Named name))
  | Ok (IsCamera c) => Ok c
  | Ok (NotCamera goType) => Err (ErrUnimplementedInterface "camera.Camera" goType)
  end.

(** [visionService].  The logger is written to only. *)
Record visionService : Type := {
  r : robot cameraResource;
  modReg : modelMap
}.

Definition withModReg (vs : visionService) (mm : modelMap) : visionService :=
  {| r := r vs; modReg := mm |}.

Section VisionService.

Variable T : tables.

Definition GetModelParameterSchema (modelType : VisModelType) : result Schema :=
  match RegisteredModelParameterSchemas T !! modelType with
  | Some modelSchema =>
      match modelSchema with
      | None => Err (ErrNoSchema modelType)
      | Some schema => Ok schema
      end
  | None => Err (ErrNoSchema modelType)
  end.

Definition GetDetectorNames (vs : visionService) : result (list string) :=
  Ok (DetectorNames (modReg vs)).

Definition AddSegmenter (cfg : VisModelConfig) (vs : visionService)
  : option error * visionService :=
  let attrs := {| ModelRegistry := [cfg] |} in
  let '(err, mm) := registerNewVisModels T (modReg vs) attrs in
  (err, withModReg vs mm).

Definition AddDetector (cfg : VisModelConfig) (vs : visionService)
  : option error * visionService :=
  let attrs := {| ModelRegistry := [cfg] |} in
  match registerNewVisModels T (modReg vs) attrs with
  | (Some err, mm) => (Some err, withModReg vs mm)
  | (None, mm) =>
      let segmenterConf :=
        {| Name := Name cfg +:+ "_segmenter";
           Type_ := DetectorSegmenter T;
           Parameters := [("detector_name", AttrString (Name cfg));
                          ("mean_k", AttrInt 0);
                          ("sigma", AttrFloat 0)] |} in
      AddSegmenter segmenterConf (withModReg vs mm)
  end.

(** The [segmenterConf] that [AddDetector] builds, for use in statements. *)
Definition segmenterConfOf (cfg : VisModelConfig) : VisModelConfig :=
  {| Name := Name cfg +:+ "_segmenter";
     Type_ := DetectorSegmenter T;
     Parameters := [("detector_name", AttrString (Name cfg));
                    ("mean_k", AttrInt 0);
                    ("sigma", AttrFloat 0)] |}.

Definition RemoveSegmenter (segmenterName : string) (vs : visionService)
  : option error * visionService :=
  let '(err, mm) := removeVisModel segmenterName (modReg vs) in
  (err, withModReg vs mm).

Definition RemoveDetector (detectorName : string) (vs : visionService)
  : option error * visionService :=
  match removeVisModel detectorName (modReg vs) with
  | (Some err, mm) => (Some err, withModReg vs mm)
  | (None, mm) => RemoveSegmenter (detectorName +:+ "_segmenter") (withModReg vs mm)
  end.

Definition GetDetectionsFromCamera (cameraName detectorName : string) (vs : visionService)
  : result (list Detection) :=
  match camera_FromRobot (r vs) cameraName with
  | Err err => Err err
  | Ok cam =>
      match modelLookup detectorName (modReg vs) with
      | Err err => Err err
      | Ok d =>
          match toDetector d with
          | Err err => Err err
          | Ok detector =>
              match ReadImage cam with
              | Err err => Err err
              | Ok img => detector img
              end
          end
      end
  end.

Definition GetDetections (img : Image) (detectorName : string) (vs : visionService)
  : result (list Detection) :=
  match modelLookup detectorName (modReg vs) with
  | Err err => Err err
  | Ok d =>
      match toDetector d with
      | Err err => Err err
      | Ok detector => detector img
      end
  end.

Definition GetClassifierNames (vs : visionService) : result (list string) :=
  Ok (ClassifierNames (modReg vs)).

Definition AddClassifier (cfg : VisModelConfig) (vs : visionService)
  : option error * visionService :=
  let attrs := {| ModelRegistry := [cfg] |} in
  match registerNewVisModels T (modReg vs) attrs with
  | (Some err, mm) => (Some err, withModReg vs mm)
  | (None, mm) => (None, withModReg vs mm)
  end.

Definition RemoveClassifier (classifierName : string) (vs : visionService)
  : option error * visionService :=
  match removeVisModel classifierName (modReg vs) with
  | (Some err, mm) => (Some err, withModReg vs mm)
  | (None, mm) => (None, withModReg vs mm)
  end.

Definition GetClassificationsFromCamera (cameraName classifierName : string) (n : Z)
    (vs : visionService) : result Classifications :=
  match camera_FromRobot (r vs) cameraName with
  | Err err => Err err
  | Ok cam =>
      match modelLookup classifierName (modReg vs) with
      | Err err => Err err
      | Ok c =>
          match toClassifier c with
          | Err err => Err err
          | Ok classifier =>
              match ReadImage cam with
              | Err err => Err err
              | Ok img =>
                  match classifier img with
                  | Err err => Err err
                  | Ok fullClassifications => TopN n fullClassifications
                  end
              end
          end
      end
  end.

Definition GetClassifications (img : Image) (classifierName : string) (n : Z)
    (vs : visionService) : result Classifications :=
  match modelLookup classifierName (modReg vs) with
  | Err err => Err err
  | Ok c =>
      match toClassifier c with
      | Err err => Err err
      | Ok classifier =>
          match classifier img with
          | Err err => Err err
          | Ok fullClassifications => TopN n fullClassifications
          end
      end
  end.

Definition GetSegmenterNames (vs : visionService) : result (list string) :=
  Ok (SegmenterNames (modReg vs)).

Definition GetObjectPointClouds (cameraName segmenterName : string) (vs : visionService)
  : result (list Object) :=
  match camera_FromRobot (r vs) cameraName with
  | Err err => Err err
  | Ok cam =>
      match modelLookup segmenterName (modReg vs) with
      | Err err => Err err
      | Ok s =>
          match toSegmenter s with
          | Err err => Err err
          | Ok segmenter => segmenter cam
          end
      end
  end.

(** The loop of [Close] over the names taken before it starts. *)
Fixpoint closeLoop (models : list string) (mm : modelMap) : option error * modelMap :=
  match models with
  | [] => (None, mm)
  | detectorName :: rest =>
      match removeVisModel detectorName mm with
      | (Some err, mm') => (Some err, mm')
      | (None, mm') => closeLoop rest mm'
      end
  end.

Definition Close (vs : visionService) : option error * visionService :=
  let models := modelNames (modReg vs) in
  let '(err, mm) := closeLoop models (modReg vs) in
  (err, withModReg vs mm).

End VisionService.

(** ** The Service interface *)

Module Service.

(** The method set of the Go interface [Service] for an implementation
    whose state is [St].  A method may change the state of its receiver.
    [Close] is not part of the interface: it is the method
    [goutils.TryClose] looks for on the dynamic value, [None] when the
    implementation has none. *)
Class Ops (St : Type) : Type := {
  GetModelParameterSchema : VisModelType -> St -> result Schema * St;
  GetDetectorNames : St -> result (list string) * St;
  AddDetector : VisModelConfig -> St -> option error * St;
  RemoveDetector : string -> St -> option error * St;
  GetDetectionsFromCamera : string -> string -> St -> result (list Detection) * St;
  GetDetections : Image -> string -> St -> result (list Detection) * St;
  GetClassifierNames : St -> result (list string) * St;
  AddClassifier : VisModelConfig -> St -> option error * St;
  RemoveClassifier : string -> St -> option error * St;
  GetClassificationsFromCamera : string -> string -> Z -> St -> result Classifications * St;
  GetClassifications : Image -> string -> Z -> St -> result Classifications * St;
  GetSegmenterNames : St -> result (list string) * St;
  AddSegmenter : VisModelConfig -> St -> option error * St;
  RemoveSegmenter : string -> St -> option error * St;
  GetObjectPointClouds : string -> string -> St -> result (list Object) * St;
  Close : option (St -> option error * St)
}.

(** A value of interface type [Service]: the Go type of the dynamic value,
    its method set and its state. *)
Record t : Type := Make {
  goType : string;
  St : Type;
  impl : Ops St;
  self : St
}.

(** A method call on an interface value. *)
Definition call {A : Type} (m : forall St, Ops St -> St -> A * St) (s : t) : A * t :=
  let '(a, st) := m (St s) (impl s) (self s) in
  (a, {| goType := goType s; St := St s; impl := impl s; self := st |}).

(** [goutils.TryClose]: closes the value when it has a [Close] method. *)
Definition TryClose (s : t) : option error * t :=
  match @Close (St s) (impl s) with
  | Some close =>
      let '(err, st) := close (self s) in
      (err, {| goType := goType s; St := St s; impl := impl s; self := st |})
  | None => (None, s)
  end.

End Service.

(** [*visionService] satisfies [Service]; the methods that only read leave
    the state as it is. *)
Definition visionService_Ops (T : tables) : Service.Ops visionService := {|
  Service.GetModelParameterSchema modelType vs := (GetModelParameterSchema T modelType, vs);
  Service.GetDetectorNames vs := (GetDetectorNames vs, vs);
  Service.AddDetector := AddDetector T;
  Service.RemoveDetector := RemoveDetector;
  Service.GetDetectionsFromCamera cameraName detectorName vs :=
    (GetDetectionsFromCamera cameraName detectorName vs, vs);
  Service.GetDetections img detectorName vs := (GetDetections img detectorName vs, vs);
  Service.GetClassifierNames vs := (GetClassifierNames vs, vs);
  Service.AddClassifier := AddClassifier T;
  Service.RemoveClassifier := RemoveClassifier;
  Service.GetClassificationsFromCamera cameraName classifierName n vs :=
    (GetClassificationsFromCamera cameraName classifierName n vs, vs);
  Service.GetClassifications img classifierName n vs :=
    (GetClassifications img classifierName n vs, vs);
  Service.GetSegmenterNames vs := (GetSegmenterNames vs, vs);
  Service.AddSegmenter := AddSegmenter T;
  Service.RemoveSegmenter := RemoveSegmenter;
  Service.GetObjectPointClouds cameraName segmenterName vs :=
    (GetObjectPointClouds cameraName segmenterName vs, vs);
  Service.Close := Some Close
|}.

(** [New] without its registration step: a [*visionService] as an
    interface value. *)
Definition asService (T : tables) (vs : visionService) : Service.t :=
  Service.Make "*vision.visionService" visionService (visionService_Ops T) vs.

(** ** The reconfigurable shim *)

(** [reconfigurableVision].  The mutex [mu] has no data; what it
    guarantees is the subject of the section on locking below.  Every
    method here is the body that runs while the lock is held. *)
Record reconfigurableVision : Type := {
  actual : Service.t
}.

(** From the spec, for comparison with the methods below: a delegated
    operation invokes the operation of the same name on the current actual
    with its arguments unchanged and returns that operation's result
    unchanged.  [m] is the operation with its arguments. *)
Definition delegated {A : Type} (m : forall St, Service.Ops St -> St -> A * St)
    (svc : reconfigurableVision) : A * reconfigurableVision :=
  let '(res, a) := Service.call m (actual svc) in
  (res, {| actual := a |}).

Definition reconfigurableVision_GetModelParameterSchema (modelType : VisModelType)
    (svc : reconfigurableVision) : result Schema * reconfigurableVision :=
  let '(res, a) :=
    Service.call (fun St o => @Service.GetModelParameterSchema St o modelType) (actual svc) in
  (res, {| actual := a |}).

Definition reconfigurableVision_GetDetectorNames (svc : reconfigurableVision)
  : result (list string) * reconfigurableVision :=
  let '(res, a) := Service.call (fun St o => @Service.GetDetectorNames St o) (actual svc) in
  (res, {| actual := a |}).

Definition reconfigurableVision_AddDetector (cfg : VisModelConfig)
    (svc : reconfigurableVision) : option error * reconfigurableVision :=
  let '(res, a) := Service.call (fun St o => @Service.AddDetector St o cfg) (actual svc) in
  (res, {| actual := a |}).

Definition reconfigurableVision_RemoveDetector (detectorName : string)
    (svc : reconfigurableVision) : option error * reconfigurableVision :=
  let '(res, a) :=
    Service.call (fun St o => @Service.RemoveDetector St o detectorName) (actual svc) in
  (res, {| actual := a |}).

Definition reconfigurableVision_GetDetectionsFromCamera (cameraName detectorName : string)
    (svc : reconfigurableVision) : result (list Detection) * reconfigurableVision :=
  let '(res, a) :=
    Service.call (fun St o => @Service.GetDetectionsFromCamera St o cameraName detectorName)
      (actual svc) in
  (res, {| actual := a |}).

Definition reconfigurableVision_GetDetections (img : Image) (detectorName : string)
    (svc : reconfigurableVision) : result (list Detection) * reconfigurableVision :=
  let '(res, a) :=
    Service.call (fun St o => @Service.GetDetections St o img detectorName) (actual svc) in
  (res, {| actual := a |}).

Definition reconfigurableVision_GetClassifierNames (svc : reconfigurableVision)
  : result (list string) * reconfigurableVision :=
  let '(res, a) := Service.call (fun St o => @Service.GetClassifierNames St o) (actual svc) in
  (res, {| actual := a |}).

Definition reconfigurableVision_AddClassifier (cfg : VisModelConfig)
    (svc : reconfigurableVision) : option error * reconfigurableVision :=
  let '(res, a) := Service.call (fun St o => @Service.AddClassifier St o cfg) (actual svc) in
  (res, {| actual := a |}).

Definition reconfigurableVision_RemoveClassifier (classifierName : string)
    (svc : reconfigurableVision) : option error * reconfigurableVision :=
  let '(res, a) :=
    Service.call (fun St o => @Service.RemoveDetector St o classifierName) (actual svc) in
  (res, {| actual := a |}).

Definition reconfigurableVision_GetClassificationsFromCamera
    (cameraName classifierName : string) (n : Z)
    (svc : reconfigurableVision) : result Classifications * reconfigurableVision :=
  let '(res, a) :=
    Service.call
      (fun St o => @Service.GetClassificationsFromCamera St o cameraName classifierName n)
      (actual svc) in
  (res, {| actual := a |}).

Definition reconfigurableVision_GetClassifications (img : Image) (classifierName : string)
    (n : Z) (svc : reconfigurableVision) : result Classifications * reconfigurableVision :=
  let '(res, a) :=
    Service.call (fun St o => @Service.GetClassifications St o img classifierName n)
      (actual svc) in
  (res, {| actual := a |}).

Definition reconfigurableVision_GetSegmenterNames (svc : reconfigurableVision)
  : result (list string) * reconfigurableVision :=
  let '(res, a) := Service.call (fun St o => @Service.GetSegmenterNames St o) (actual svc) in
  (res, {| actual := a |}).

Definition reconfigurableVision_AddSegmenter (cfg : VisModelConfig)
    (svc : reconfigurableVision) : option error * reconfigurableVision :=
  let '(res, a) := Service.call (fun St o => @Service.AddSegmenter St o cfg) (actual svc) in
  (res, {| actual := a |}).

Definition reconfigurableVision_RemoveSegmenter (segmenterName : string)
    (svc : reconfigurableVision) : option error * reconfigurableVision :=
  let '(res, a) :=
    Service.call (fun St o => @Service.RemoveSegmenter St o segmenterName) (actual svc) in
  (res, {| actual := a |}).

Definition reconfigurableVision_GetObjectPointClouds (cameraName segmenterName : string)
    (svc : reconfigurableVision) : result (list Object) * reconfigurableVision :=
  let '(res, a) :=
    Service.call (fun St o => @Service.GetObjectPointClouds St o cameraName segmenterName)
      (actual svc) in
  (res, {| actual := a |}).

Definition reconfigurableVision_Close (svc : reconfigurableVision)
  : option error * reconfigurableVision :=
  let '(res, a) := Service.TryClose (actual svc) in
  (res, {| actual := a |}).

(** ** Dynamic values, pointers and the log *)

(** Shims are handled through pointers: [FromRobot] hands one on,
    [WrapWithReconfigurable] returns the one it was given, [Reconfigure]
    reads one shim and writes another.  A pointer is a location of the
    heap of shims. *)
Definition loc : Type := nat.

(** A value of type [interface{}] as the type assertions of this package
    tell values apart. *)
Inductive value : Type :=
  | VNil
      (* the nil interface value *)
  | VReconfigurableVision (p : loc)
      (* a *reconfigurableVision, which satisfies Service *)
  | VService (s : Service.t)
      (* a value of another type that satisfies Service *)
  | VOther (goType : string).
      (* a value of a type that does not satisfy Service *)

(** What the verb [%T] prints. *)
Definition goTypeOf (v : value) : string :=
  match v with
  | VNil => "<nil>"
  | VReconfigurableVision _ => "*vision.reconfigurableVision"
  | VService s => Service.goType s
  | VOther goType => goType
  end.

(** The type assertion [v.(Service)]. *)
Definition satisfiesService (v : value) : bool :=
  match v with
  | VReconfigurableVision _ | VService _ => true
  | VNil | VOther _ => false
  end.

(** A value of type [resource.Reconfigurable]. *)
Inductive Reconfigurable : Type :=
  | RNil
  | RVision (p : loc)
      (* a *reconfigurableVision *)
  | ROther (goType : string).
      (* the shim of another kind of resource *)


(** A [resource.Reconfigurable] handed on as an [interface{}]. *)
Definition asValue (x : Reconfigurable) : value :=
  match x with
  | RNil => VNil
  | RVision p => VReconfigurableVision p
  | ROther goType => VOther goType
  end.

(** The heap of shims and the process-wide error log [rlog.Logger]. *)
Record world : Type := {
  shims : gmap loc reconfigurableVision;
  rlog : list (string * error)
}.

(** ** Resolving and wrapping *)

(** Modelled from the spec: [utils.NewUnimplementedInterfaceError]
    (section 4.2): the failure of a capability check, which names the
    expected interface and the actual concrete kind. *)
Definition utils_NewUnimplementedInterfaceError (expected actual : value) : error :=
  ErrUnimplementedInterface (goTypeOf expected) (goTypeOf actual).

Definition NewUnimplementedInterfaceError (actual : value) : error :=
  utils_NewUnimplementedInterfaceError VNil actual.

Definition FromRobot (r : robot value) (name : string) : result value :=
  match ResourceByName r (Named name) with
  | Err _ => Err (ErrResourceNotFound (Named name))
  | Ok resource =>
      if satisfiesService resource
      then Ok resource
      else Err (NewUnimplementedInterfaceError resource)
  end.

Definition WrapWithReconfigurable (s : value) (w : world) : result Reconfigurable * world :=
  match s with
  | VNil | VOther _ =>
      (* s.(Service) fails *)
      (Err (NewUnimplementedInterfaceError s), w)
  | VReconfigurableVision reconfigurable =>
      (* s.(Service) holds, and so does s.( *reconfigurableVision) *)
      (Ok (RVision reconfigurable), w)
  | VService svc =>
      (* s.(Service) holds, s.( *reconfigurableVision) fails *)
      let p := fresh (dom (shims w)) in
      (Ok (RVision p),
       {| shims := <[p := {| actual := svc |}]> (shims w); rlog := rlog w |})
  end.


(** ** Locking: delegated calls against one reconfigure *)

(** The shim guards [actual] with a [sync.RWMutex]: a delegated method
    holds it in read mode from its first statement until it returns, and
    [Reconfigure] holds it in write mode.  The threads are modelled as
    small programs whose steps are interleaved by a schedule. *)
Module Locking.

(** [sync.RWMutex]: the number of read holders and whether the write lock
    is held.  An operation that cannot proceed yields [None]: the caller
    stays blocked. *)
Record RWMutex : Type := {
  readerCount : nat;
  writerHeld : bool
}.

Definition RLock (mu : RWMutex) : option RWMutex :=
  if writerHeld mu then None
  else Some {| readerCount := S (readerCount mu); writerHeld := false |}.

Definition RUnlock (mu : RWMutex) : option RWMutex :=
  match readerCount mu with
  | O => None
  | S n => Some {| readerCount := n; writerHeld := writerHeld mu |}
  end.

Definition Lock (mu : RWMutex) : option RWMutex :=
  if writerHeld mu then None
  else match readerCount mu with
       | O => Some {| readerCount := O; writerHeld := true |}
       | S _ => None
       end.

Definition Unlock (mu : RWMutex) : option RWMutex :=
  if writerHeld mu
  then Some {| readerCount := readerCount mu; writerHeld := false |}
  else None.

(** The places of a delegated method: before [RLock]; lock held, before
    [svc.actual] is loaded; the call on the loaded value is running; the
    call has returned and the deferred [RUnlock] is due; finished. *)
Inductive readerPc : Type := RIdle | RLocked | RCalling | RReturned | RDone.

(** The places of [Reconfigure]: before [Lock]; lock held; old actual
    closed; new actual stored; unlocked. *)
Inductive writerPc : Type := WIdle | WLocked | WClosed | WSwapped | WDone.

Section Threads.

(** The identity of a service value; the shim starts bound to [old] and
    the reconfiguring thread installs [new]. *)
Variable A : Type.
Variables old new : A.

(** A reading thread: where it is, the value it loaded from [svc.actual],
    and what the field held at each later moment of its call. *)
Record reader : Type := {
  rpc : readerPc;
  target : option A;
  seen : list A
}.

Record state : Type := {
  mu : RWMutex;
  shimActual : A;
  readers : list reader;
  wpc : writerPc;
  closed : list A
}.

(** One entry of a schedule: reader [i] takes its next step, reader [i]
    spends one more moment inside its call, or the reconfiguring thread
    takes its next step. *)
Inductive event : Type :=
  | ReaderAdvance (i : nat)
  | ReaderWork (i : nat)
  | WriterAdvance.

Definition setReader (i : nat) (rd : reader) (mu' : RWMutex) (s : state) : state :=
  {| mu := mu'; shimActual := shimActual s; readers := <[i := rd]> (readers s);
     wpc := wpc s; closed := closed s |}.

Definition readerAdvance (i : nat) (s : state) : state :=
  match readers s !! i with
  | None => s
  | Some rd =>
      match rpc rd with
      | RIdle =>
          match RLock (mu s) with
          | None => s
          | Some mu' =>
              setReader i {| rpc := RLocked; target := target rd; seen := seen rd |} mu' s
          end
      | RLocked =>
          setReader i {| rpc := RCalling; target := Some (shimActual s); seen := [] |} (mu s) s
      | RCalling =>
          setReader i {| rpc := RReturned; target := target rd; seen := seen rd |} (mu s) s
      | RReturned =>
          match RUnlock (mu s) with
          | None => s
          | Some mu' =>
              setReader i {| rpc := RDone; target := target rd; seen := seen rd |} mu' s
          end
      | RDone => s
      end
  end.

Definition readerWork (i : nat) (s : state) : state :=
  match readers s !! i with
  | None => s
  | Some rd =>
      match rpc rd with
      | RCalling =>
          setReader i
            {| rpc := RCalling; target := target rd; seen := shimActual s :: seen rd |}
            (mu s) s
      | _ => s
      end
  end.

Definition writerAdvance (s : state) : state :=
  match wpc s with
  | WIdle =>
      match Lock (mu s) with
      | None => s
      | Some mu' =>
          {| mu := mu'; shimActual := shimActual s; readers := readers s;
             wpc := WLocked; closed := closed s |}
      end
  | WLocked =>
      {| mu := mu s; shimActual := shimActual s; readers := readers s;
         wpc := WClosed; closed := shimActual s :: closed s |}
  | WClosed =>
      {| mu := mu s; shimActual := new; readers := readers s;
         wpc := WSwapped; closed := closed s |}
  | WSwapped =>
      match Unlock (mu s) with
      | None => s
      | Some mu' =>
          {| mu := mu'; shimActual := shimActual s; readers := readers s;
             wpc := WDone; closed := closed s |}
      end
  | WDone => s
  end.

Definition step (e : event) (s : state) : state :=
  match e with
  | ReaderAdvance i => readerAdvance i s
  | ReaderWork i => readerWork i s
  | WriterAdvance => writerAdvance s
  end.

(** An interleaving is a schedule; a thread that is scheduled while it
    is blocked or finished leaves the state unchanged. *)
Definition run (schedule : list event) (s : state) : state :=
  foldl (fun s e => step e s) s schedule.

(** [n] readers and one reconfiguring thread, none started, the shim
    bound to [old]. *)
Definition init (n : nat) : state :=
  {| mu := {| readerCount := 0; writerHeld := false |};
     shimActual := old;
     readers := replicate n {| rpc := RIdle; target := None; seen := [] |};
     wpc := WIdle;
     closed := [] |}.

Definition readerInside (rd : reader) : bool :=
  match rpc rd with
  | RLocked | RCalling | RReturned => true
  | RIdle | RDone => false
  end.

Definition writerInside (p : writerPc) : bool :=
  match p with
  | WLocked | WClosed | WSwapped => true
  | WIdle | WDone => false
  end.

(** What a call saw: the value it ran on and the field at every moment. *)
Definition observed (rd : reader) : list A :=
  match target rd with
  | Some a => a :: seen rd
  | None => seen rd
  end.

(** *** The invariant of the interleavings *)

(** How many readers hold the lock. *)
Fixpoint inside (rs : list reader) : nat :=
  match rs with
  | [] => 0
  | rd :: rest => (if readerInside rd then 1 else 0) + inside rest
  end.

Definition swapped (p : writerPc) : bool :=
  match p with
  | WSwapped | WDone => true
  | WIdle | WLocked | WClosed => false
  end.

(** What holds of one reader while the shim is bound to [a]. *)
Definition readerOk (a : A) (rd : reader) : Prop :=
  match rpc rd with
  | RIdle | RLocked => target rd = None /\ seen rd = []
  | RCalling | RReturned => target rd = Some a /\ Forall (eq a) (seen rd)
  | RDone =>
      exists b, target rd = Some b /\ (b = old \/ b = new) /\ Forall (eq b) (seen rd)
  end.

Record Inv (s : state) : Prop := {
  inv_count : readerCount (mu s) = inside (readers s);
  inv_writer : writerHeld (mu s) = writerInside (wpc s);
  inv_excl : writerHeld (mu s) = true -> readerCount (mu s) = 0;
  inv_actual : shimActual s = if swapped (wpc s) then new else old;
  inv_readers : Forall (readerOk (shimActual s)) (readers s)
}.

End Threads.

Arguments rpc {A} _.
Arguments target {A} _.
Arguments seen {A} _.
Arguments mu {A} _.
Arguments shimActual {A} _.
Arguments readers {A} _.
Arguments wpc {A} _.
Arguments closed {A} _.
Arguments readerInside {A} rd.
Arguments observed {A} rd.
Arguments readerAdvance {A} i s.
Arguments readerWork {A} i s.
Arguments writerAdvance {A} new s.
Arguments step {A} new e s.
Arguments run {A} new schedule s.
Arguments init {A} old n.
Arguments inside {A} rs.
Arguments readerOk {A} old new a rd.
Arguments Inv {A} old new s.

End Locking.

(** ** Concrete inputs *)

(** A small instance of the process-wide tables and a few registries,
    used to run the definitions. *)
Module Examples.

Definition lookupParam (key : string) (ps : list (string * attribute)) : option attribute :=
  snd <$> List.find (fun kv => String.eqb (fst kv) key) ps.

Definition colorDetector : factory :=
  fun _ _ => Ok (DetectorFn (fun _ => Ok [1%nat; 2%nat]), None).

Definition scores : Classifications :=
  [ NewClassification "cat" (3 # 10); NewClassification "dog" (9 # 10);
    NewClassification "owl" (1 # 10); NewClassification "fox" (9 # 10);
    NewClassification "bee" (5 # 10) ].

Definition tfliteClassifier : factory :=
  fun _ _ => Ok (ClassifierFn (fun _ => Ok scores), Some None).

(** The segmenter made from a detector needs that detector. *)
Definition detectorSegmenter : factory :=
  fun mm cfg =>
    match lookupParam "detector_name" (Parameters cfg) with
    | Some (AttrString d) =>
        match modelLookup d mm with
        | Err e => Err e
        | Ok m =>
            match toDetector m with
            | Err e => Err e
            | Ok _ => Ok (SegmenterFn (fun _ => Ok [7%nat]), None)
            end
        end
    | _ => Err (ErrUpstream "detector_name is missing")
    end.

Definition radiusClustering : factory :=
  fun _ _ => Ok (SegmenterFn (fun _ => Ok [8%nat]), None).

Definition T0 : tables := {|
  DetectorSegmenter := "detector_segmenter";
  modelFactories :=
    <["color_detector" := colorDetector]>
      (<["tflite_classifier" := tfliteClassifier]>
         (<["detector_segmenter" := detectorSegmenter]>
            (<["radius_clustering_segmenter" := radiusClustering]> ∅)));
  RegisteredModelParameterSchemas :=
    <["color_detector" := Some "color detector schema"]>
      (<["tflite_classifier" := None]> ∅)
|}.

(** Tables in which the segmenter of a detector cannot be built. *)
Definition T1 : tables := {|
  DetectorSegmenter := "detector_segmenter";
  modelFactories :=
    <["color_detector" := colorDetector]>
      (<["detector_segmenter" :=
           (fun _ _ => Err (ErrUpstream "no point cloud support")) : factory]> ∅);
  RegisteredModelParameterSchemas := ∅
|}.

Definition frontCamera : Camera := {| CameraName := "front"; ReadImage := Ok 42%nat |}.

Definition robot0 : robot cameraResource := {|
  ResourceByName n :=
    if String.eqb (NameName n) "front" then Ok (IsCamera frontCamera)
    else if String.eqb (NameName n) "arm" then Ok (NotCamera "*arm.reconfigurableArm")
    else Err (ErrResourceNotFound n)
|}.

Definition detectorModel (name : string) : registeredModel := {|
  ModelName := name; ModelParameters := [];
  Model := DetectorFn (fun _ => Ok [1%nat; 2%nat]); Closer := None |}.

Definition classifierModel (name : string) : registeredModel := {|
  ModelName := name; ModelParameters := [];
  Model := ClassifierFn (fun _ => Ok scores); Closer := Some None |}.

Definition segmenterModel (name : string) : registeredModel := {|
  ModelName := name; ModelParameters := [];
  Model := SegmenterFn (fun _ => Ok [8%nat]); Closer := None |}.

(** A model whose release hook fails. *)
Definition stuckModel (name : string) : registeredModel := {|
  ModelName := name; ModelParameters := [];
  Model := ClassifierFn (fun _ => Ok scores);
  Closer := Some (Some (ErrUpstream "engine busy")) |}.

Definition emptyService : visionService := {| r := robot0; modReg := ∅ |}.

(** A detector registered at construction: [New] registers the configs
    it is given and adds no segmenter. *)
Definition onlyDetector : visionService :=
  {| r := robot0; modReg := <["d1" := detectorModel "d1"]> ∅ |}.

(** A classifier next to a segmenter that happens to carry its name and
    the segmenter suffix. *)
Definition classifierAndSegmenter : visionService :=
  {| r := robot0;
     modReg := <["c" := classifierModel "c"]>
                 (<["c_segmenter" := segmenterModel "c_segmenter"]> ∅) |}.

Definition mixed : visionService :=
  {| r := robot0;
     modReg := <["d1" := detectorModel "d1"]>
                 (<["c1" := classifierModel "c1"]>
                    (<["s1" := segmenterModel "s1"]> ∅)) |}.

(** A registry in which the release hook of one model fails. *)
Definition oneStuck : visionService :=
  {| r := robot0;
     modReg := <["d1" := detectorModel "d1"]>
                 (<["c1" := stuckModel "c1"]>
                    (<["s1" := segmenterModel "s1"]> ∅)) |}.

Definition d1Config : VisModelConfig :=
  {| Name := "d1"; Type_ := "color_detector"; Parameters := [] |}.

(** A resource set for [FromRobot]. *)
Definition robot1 : robot value := {|
  ResourceByName n :=
    if String.eqb (NameName n) "vision1" then Ok (VReconfigurableVision 0%nat)
    else if String.eqb (NameName n) "vision2" then Ok (VService (asService T0 emptyService))
    else if String.eqb (NameName n) "arm" then Ok (VOther "*arm.reconfigurableArm")
    else Err (ErrResourceNotFound n)
|}.

(** A service whose [Close] fails. *)
Definition stuckService : visionService :=
  {| r := robot0; modReg := <["c1" := stuckModel "c1"]> ∅ |}.

Definition world0 : world := {|
  shims := <[0%nat := {| actual := asService T0 stuckService |}]>
             (<[1%nat := {| actual := asService T0 mixed |}]> ∅);
  rlog := []
|}.

End Examples.

(** ** Construction and the first service of a robot *)

(** [config.Service] as [New] reads it: the field [ConvertedAttributes] is
    an [interface{}] that is nil, holds a [*Attributes], or holds a value of
    another Go type. *)
Inductive convertedAttributes : Type :=
  | NoAttributes
  | VisionAttributes (attrs : Attributes)
  | OtherAttributes (goType : string).

Record config_Service : Type := {
  ConvertedAttributes : convertedAttributes
}.

(** [New]: the registry starts empty and receives the configured models;
    no segmenter is derived here. *)
Definition New (T : tables) (r : robot cameraResource) (config : config_Service)
  : result visionService :=
  let modMap : modelMap := ∅ in
  match ConvertedAttributes config with
  | NoAttributes => Ok {| r := r; modReg := modMap |}
  | OtherAttributes goType => Err (ErrUnexpectedType "*vision.Attributes" goType)
  | VisionAttributes attrs =>
      match registerNewVisModels T modMap attrs with
      | (Some err, _) => Err err
      | (None, mm) => Ok {| r := r; modReg := mm |}
      end
  end.

(** A robot for [FindFirstName]: the resources it resolves and what
    [robot.NamesBySubtype] answers for it. *)
Record namedRobot : Type := {
  resources : robot value;
  NamesBySubtype : Subtype_ -> list string
}.

Definition FindFirstName (r : namedRobot) : string :=
  match NamesBySubtype r Subtype with
  | val :: _ => val
  | [] => ""
  end.

Definition FirstFromRobot (r : namedRobot) : result value :=
  let name := FindFirstName r in
  FromRobot (resources r) name.

(** ** The transform pipeline of a camera *)

Module TransformPipeline.

(** An error of [newTransformPipeline]: one of its own two messages, or
    what a collaborator returned. *)
Inductive pipelineError : Type :=
  | NoSourceCamera
      (* errors.New("no source camera for transform pipeline") *)
  | NoTransforms
      (* errors.New("pipeline has no transforms in it") *)
  | Collaborator (e : error).
      (* returned by buildTransform or camera.New *)

Section Pipeline.

(** The collaborators are declared in other files of the packages
    [transformpipeline] and [camera]; they are taken as they are:
    [gostream.ImageSource] values, the transformations of a config, the
    robot, the projector of the camera attributes, and the three functions
    the constructor calls. *)
Variables ImageSource Transformation Robot Projector AttrConfig Cam : Type.

Record transformConfig : Type := {
  AttrConfig_ : option AttrConfig;
  Source : string;
  Pipeline : list Transformation
}.

Variable buildTransform :
  Robot -> ImageSource -> transformConfig -> Transformation -> result ImageSource.
Variable GetProjector : option AttrConfig -> Projector.
Variable camera_New : ImageSource -> Projector -> result Cam.

(** The loop of [newTransformPipeline]: each transform is built on the
    output of the one before it. *)
Fixpoint buildAll (r : Robot) (cfg : transformConfig) (outSource : ImageSource)
    (pipeline : list Transformation) : result ImageSource :=
  match pipeline with
  | [] => Ok outSource
  | tr :: rest =>
      match buildTransform r outSource cfg tr with
      | Err err => Err err
      | Ok src => buildAll r cfg src rest
      end
  end.

(** [source] is an interface value and may be nil. *)
Definition newTransformPipeline (source : option ImageSource) (cfg : transformConfig)
    (r : Robot) : pipelineError + Cam :=
  match source with
  | None => inl NoSourceCamera
  | Some source =>
      if Nat.eqb (length (Pipeline cfg)) 0
      then inl NoTransforms
      else
        match buildAll r cfg source (Pipeline cfg) with
        | Err err => inl (Collaborator err)
        | Ok outSource =>
            let proj := GetProjector (AttrConfig_ cfg) in
            match camera_New outSource proj with
            | Err err => inl (Collaborator err)
            | Ok cam => inr cam
            end
        end
  end.

End Pipeline.

Arguments AttrConfig_ {Transformation AttrConfig} _.
Arguments Source {Transformation AttrConfig} _.
Arguments Pipeline {Transformation AttrConfig} _.
Arguments buildAll {ImageSource Transformation Robot AttrConfig} buildTransform r cfg outSource pipeline.
Arguments newTransformPipeline {ImageSource Transformation Robot Projector AttrConfig Cam}
  buildTransform GetProjector camera_New source cfg r.

End TransformPipeline.

(** ** Locking: closing the old actual, and running to completion *)

Module LockingMore.
Import Locking.

(** Whether [Reconfigure] has closed the old actual. *)
Definition closedYet (p : writerPc) : bool :=
  match p with
  | WClosed | WSwapped | WDone => true
  | WIdle | WLocked => false
  end.

(** What [Reconfigure] has closed: nothing before its close, the old
    actual from then on. *)
Definition closedInv {A : Type} (old : A) (s : state A) : Prop :=
  closed s = if closedYet (wpc s) then [old] else [].

(** How many steps a thread is away from its end. *)
Definition readerRank (p : readerPc) : nat :=
  match p with
  | RIdle => 4
  | RLocked => 3
  | RCalling => 2
  | RReturned => 1
  | RDone => 0
  end.

Definition writerRank (p : writerPc) : nat :=
  match p with
  | WIdle => 4
  | WLocked => 3
  | WClosed => 2
  | WSwapped => 1
  | WDone => 0
  end.

(** A schedule that lets every thread finish, whatever state it starts
    in: the reconfiguring thread first, in case it holds the lock; then the
    readers one after the other; then the reconfiguring thread again, in
    case it had been waiting. *)
Definition finishReaders (n : nat) : list event :=
  flat_map (fun i => replicate 4 (ReaderAdvance i)) (seq 0 n).

Definition finish (n : nat) : list event :=
  replicate 4 WriterAdvance ++ finishReaders n ++ replicate 4 WriterAdvance.

Definition allDone {A : Type} (s : state A) : Prop :=
  wpc s = WDone /\ Forall (fun rd => rpc rd = RDone) (readers s).

End LockingMore.

(** ** More concrete inputs *)

Module MoreExamples.

(** A detector with the segmenter derived from it. *)
Definition detectorPair : visionService :=
  {| r := Examples.robot0;
     modReg := <["d1" := Examples.detectorModel "d1"]>
                 (<["d1_segmenter" := Examples.segmenterModel "d1_segmenter"]>
                    (<["c1" := Examples.classifierModel "c1"]> ∅)) |}.

Definition twoModels : config_Service := {|
  ConvertedAttributes :=
    VisionAttributes
      {| ModelRegistry :=
           [ {| Name := "d1"; Type_ := "color_detector"; Parameters := [] |};
             {| Name := "c1"; Type_ := "tflite_classifier"; Parameters := [] |} ] |}
|}.

(** A robot without a vision service, and one with two of them. *)
Definition bareRobot : namedRobot := {|
  resources := Examples.robot1;
  NamesBySubtype _ := []
|}.

Definition twoVisionRobot : namedRobot := {|
  resources := Examples.robot1;
  NamesBySubtype s :=
    if String.eqb (ResourceSubtype s) "vision" then ["vision2"; "vision1"] else []
|}.

(** A transform pipeline over image sources that record the transforms
    applied to them; the transform "undistort" cannot be built. *)
Definition buildTransform (_ : unit) (src : list string)
    (_ : TransformPipeline.transformConfig string unit) (tr : string)
  : result (list string) :=
  if String.eqb tr "undistort"
  then Err (ErrUpstream "no intrinsics")
  else Ok (src ++ [tr]).

Definition GetProjector (_ : option unit) : unit := tt.

Definition camera_New (src : list string) (_ : unit) : result (list string) := Ok src.

Definition pipelineOf (trs : list string) : TransformPipeline.transformConfig string unit :=
  {| TransformPipeline.AttrConfig_ := None;
     TransformPipeline.Source := "front";
     TransformPipeline.Pipeline := trs |}.

End MoreExamples.

(** * Statements *)

(** ** Facts about the registry *)

Lemma elem_of_modelNames (mm : modelMap) (name : string) :
  name ∈ modelNames mm <-> is_Some (mm !! name).
Proof.
  unfold modelNames. rewrite list_elem_of_fmap. split.
  - intros [[k m] [-> H]]. apply elem_of_map_to_list in H. eauto.
  - intros [m H]. exists (name, m). split; [reflexivity |]. by apply elem_of_map_to_list.
Qed.

Lemma NoDup_modelNames (mm : modelMap) : NoDup (modelNames mm).
Proof. apply NoDup_fst_map_to_list. Qed.

Lemma elem_of_namesOfKind (k : ModelKind) (mm : modelMap) (name : string) :
  name ∈ List.filter (hasKind k mm) (modelNames mm) <->
  exists m, mm !! name = Some m /\ ModelKindOf m = k.
Proof.
  rewrite list_elem_of_In, filter_In, <- list_elem_of_In, elem_of_modelNames.
  unfold hasKind. split.
  - intros [[m Hm] H]. rewrite Hm in H. apply bool_decide_eq_true in H. eauto.
  - intros (m & Hm & Hk). rewrite Hm. split; [eauto |]. by apply bool_decide_eq_true.
Qed.

Lemma modelNames_empty : modelNames ∅ = [].
Proof. unfold modelNames. by rewrite map_to_list_empty. Qed.

Lemma names_of_empty (mm : modelMap) :
  (forall k, mm !! k = None) ->
  DetectorNames mm = [] /\ ClassifierNames mm = [] /\ SegmenterNames mm = [].
Proof.
  intros H. assert (mm = ∅) as -> by (apply map_eq; intros k; by rewrite H, lookup_empty).
  unfold DetectorNames, ClassifierNames, SegmenterNames. rewrite modelNames_empty.
  repeat split.
Qed.

Lemma String_length_append (s1 s2 : string) :
  String.length (s1 +:+ s2) = String.length s1 + String.length s2.
Proof. induction s1 as [| c s1 IH]; simpl; [reflexivity | by rewrite IH]. Qed.

Lemma segmenter_name_differs (name : string) : name <> name +:+ "_segmenter".
Proof.
  intros H. apply (f_equal String.length) in H.
  rewrite String_length_append in H. simpl in H. lia.
Qed.

Lemma removeVisModel_present (name : string) (mm : modelMap) (m : registeredModel) :
  mm !! name = Some m ->
  (forall err, Closer m <> Some (Some err)) ->
  removeVisModel name mm = (None, delete name mm).
Proof.
  intros Hm Hc. unfold removeVisModel. rewrite Hm.
  destruct (Closer m) as [[err |] |]; try reflexivity. by destruct (Hc err).
Qed.

Lemma removeVisModel_absent (name : string) (mm : modelMap) :
  mm !! name = None ->
  removeVisModel name mm = (Some (ErrNoSuchModel name), mm).
Proof. intros Hm. unfold removeVisModel. by rewrite Hm. Qed.

Lemma removeVisModel_succeeded (name : string) (mm : modelMap) :
  fst (removeVisModel name mm) = None ->
  removeVisModel name mm = (None, delete name mm).
Proof.
  unfold removeVisModel. destruct (mm !! name) as [m |]; [| discriminate].
  destruct (Closer m) as [[err |] |]; [discriminate | reflexivity | reflexivity].
Qed.

Lemma removeVisModel_failed (name : string) (mm : modelMap) (err : error) :
  fst (removeVisModel name mm) = Some err ->
  removeVisModel name mm = (Some err, mm).
Proof.
  unfold removeVisModel. destruct (mm !! name) as [m |].
  - destruct (Closer m) as [[err' |] |]; simpl; [| discriminate | discriminate].
    by intros [= ->].
  - simpl. by intros [= ->].
Qed.

(** Whether a removal succeeds depends on the entry of that name only. *)
Lemma removeVisModel_fst_delete (name other : string) (mm : modelMap) :
  name <> other ->
  fst (removeVisModel name (delete other mm)) = fst (removeVisModel name mm).
Proof.
  intros Hne. unfold removeVisModel. rewrite lookup_delete_ne by congruence.
  destruct (mm !! name) as [m |]; [| reflexivity].
  destruct (Closer m) as [[err |] |]; reflexivity.
Qed.

Lemma registerNewVisModels_one (T : tables) (mm : modelMap) (cfg : VisModelConfig) :
  registerNewVisModels T mm {| ModelRegistry := [cfg] |} =
    match modelFactories T !! Type_ cfg with
    | None => (Some (ErrModelTypeNotImplemented (Type_ cfg)), mm)
    | Some build =>
        match build mm cfg with
        | Err e => (Some e, mm)
        | Ok (x, closer) =>
            (None, <[Name cfg := {| ModelName := Name cfg;
                                    ModelParameters := Parameters cfg;
                                    Model := x;
                                    Closer := closer |}]> mm)
        end
    end.
Proof.
  unfold registerNewVisModels. simpl.
  destruct (modelFactories T !! Type_ cfg) as [build |]; [| reflexivity].
  destruct (build mm cfg) as [[x closer] | e]; reflexivity.
Qed.

Lemma registerNewVisModels_one_ok (T : tables) (mm mm1 : modelMap) (cfg : VisModelConfig) :
  registerNewVisModels T mm {| ModelRegistry := [cfg] |} = (None, mm1) ->
  exists build x closer,
    modelFactories T !! Type_ cfg = Some build /\
    build mm cfg = Ok (x, closer) /\
    mm1 = <[Name cfg := {| ModelName := Name cfg;
                           ModelParameters := Parameters cfg;
                           Model := x;
                           Closer := closer |}]> mm.
Proof.
  rewrite registerNewVisModels_one.
  destruct (modelFactories T !! Type_ cfg) as [build |] eqn:Hb; [| discriminate].
  destruct (build mm cfg) as [[x closer] | e] eqn:Hx; [| discriminate].
  intros [= <-]. exists build, x, closer. repeat split. exact Hx.
Qed.

Lemma registerNewVisModels_one_failed (T : tables) (mm mm1 : modelMap)
    (cfg : VisModelConfig) (e : error) :
  registerNewVisModels T mm {| ModelRegistry := [cfg] |} = (Some e, mm1) -> mm1 = mm.
Proof.
  rewrite registerNewVisModels_one.
  destruct (modelFactories T !! Type_ cfg) as [build |]; [| by intros [= _ <-]].
  destruct (build mm cfg) as [[x closer] | e']; [discriminate | by intros [= _ <-]].
Qed.

(** ** The shim: delegation *)

(** Fourteen of the fifteen operations of [Service] are delegated as the
    specification says. *)
Lemma reconfigurableVision_delegates (svc : reconfigurableVision) :
  (forall modelType,
      reconfigurableVision_GetModelParameterSchema modelType svc =
      delegated (fun St o => @Service.GetModelParameterSchema St o modelType) svc) /\
  reconfigurableVision_GetDetectorNames svc =
    delegated (fun St o => @Service.GetDetectorNames St o) svc /\
  (forall cfg,
      reconfigurableVision_AddDetector cfg svc =
      delegated (fun St o => @Service.AddDetector St o cfg) svc) /\
  (forall detectorName,
      reconfigurableVision_RemoveDetector detectorName svc =
      delegated (fun St o => @Service.RemoveDetector St o detectorName) svc) /\
  (forall cameraName detectorName,
      reconfigurableVision_GetDetectionsFromCamera cameraName detectorName svc =
      delegated (fun St o => @Service.GetDetectionsFromCamera St o cameraName detectorName)
        svc) /\
  (forall img detectorName,
      reconfigurableVision_GetDetections img detectorName svc =
      delegated (fun St o => @Service.GetDetections St o img detectorName) svc) /\
  reconfigurableVision_GetClassifierNames svc =
    delegated (fun St o => @Service.GetClassifierNames St o) svc /\
  (forall cfg,
      reconfigurableVision_AddClassifier cfg svc =
      delegated (fun St o => @Service.AddClassifier St o cfg) svc) /\
  (forall cameraName classifierName n,
      reconfigurableVision_GetClassificationsFromCamera cameraName classifierName n svc =
      delegated
        (fun St o => @Service.GetClassificationsFromCamera St o cameraName classifierName n)
        svc) /\
  (forall img classifierName n,
      reconfigurableVision_GetClassifications img classifierName n svc =
      delegated (fun St o => @Service.GetClassifications St o img classifierName n) svc) /\
  reconfigurableVision_GetSegmenterNames svc =
    delegated (fun St o => @Service.GetSegmenterNames St o) svc /\
  (forall cfg,
      reconfigurableVision_AddSegmenter cfg svc =
      delegated (fun St o => @Service.AddSegmenter St o cfg) svc) /\
  (forall segmenterName,
      reconfigurableVision_RemoveSegmenter segmenterName svc =
      delegated (fun St o => @Service.RemoveSegmenter St o segmenterName) svc) /\
  (forall cameraName segmenterName,
      reconfigurableVision_GetObjectPointClouds cameraName segmenterName svc =
      delegated (fun St o => @Service.GetObjectPointClouds St o cameraName segmenterName)
        svc).
Proof. repeat split. Qed.

(** The fifteenth, [RemoveClassifier], runs the actual's [RemoveDetector]. *)
Lemma reconfigurableVision_RemoveClassifier_calls_RemoveDetector
    (classifierName : string) (svc : reconfigurableVision) :
  reconfigurableVision_RemoveClassifier classifierName svc =
  delegated (fun St o => @Service.RemoveDetector St o classifierName) svc.
Proof. reflexivity. Qed.

(** C1, at the input where the code leaves it.  A shim wraps a vision
    service that holds the classifier "c" and a segmenter "c_segmenter".
    The operation of the same name on the actual removes the classifier and
    keeps the segmenter; [RemoveClassifier] on the shim removes both.  On a
    service that holds the classifier "c1" and no "c1_segmenter" the
    operation of the same name succeeds, and the shim returns the failure of
    removing "c1_segmenter". *)
Theorem reconfigurableVision_RemoveClassifier_removes_segmenter :
  let svc := {| actual := asService Examples.T0 Examples.classifierAndSegmenter |} in
  let sameName := delegated (fun St o => @Service.RemoveClassifier St o "c") svc in
  let viaShim := reconfigurableVision_RemoveClassifier "c" svc in
  let svc1 := {| actual := asService Examples.T0 Examples.mixed |} in
  fst sameName = None /\
  fst (reconfigurableVision_GetClassifierNames (snd sameName)) = Ok [] /\
  fst (reconfigurableVision_GetSegmenterNames (snd sameName)) = Ok ["c_segmenter"] /\
  fst viaShim = None /\
  fst (reconfigurableVision_GetClassifierNames (snd viaShim)) = Ok [] /\
  fst (reconfigurableVision_GetSegmenterNames (snd viaShim)) = Ok [] /\
  fst (delegated (fun St o => @Service.RemoveClassifier St o "c1") svc1) = None /\
  fst (reconfigurableVision_RemoveClassifier "c1" svc1) = Some (ErrNoSuchModel "c1_segmenter").
Proof. vm_compute. repeat split. Qed.

(** ** The shim: reconfiguring *)



(** ** Resolving a service *)

(** C7.  [FromRobot] fails with NotFound, naming the name asked for, when
    the robot has no resource of that name; it fails with
    UnimplementedInterface, naming the Go type of the resource found, when
    that resource does not satisfy [Service]; otherwise it returns the
    resource. *)
Theorem FromRobot_resolves (r : robot value) (name : string) :
  (forall e,
      ResourceByName r (Named name) = Err e ->
      exists e',
        FromRobot r name = Err e' /\ errorKind e' = NotFound /\ errorNames e' = [name]) /\
  (forall resource,
      ResourceByName r (Named name) = Ok resource ->
      satisfiesService resource = false ->
      exists e',
        FromRobot r name = Err e' /\
        errorKind e' = UnimplementedInterface /\
        goTypeOf resource ∈ errorNames e') /\
  (forall resource,
      ResourceByName r (Named name) = Ok resource ->
      satisfiesService resource = true ->
      FromRobot r name = Ok resource).
Proof.
  unfold FromRobot. repeat split.
  - intros e ->. eexists. repeat split.
  - intros resource -> ->. eexists. repeat split. simpl.
    apply elem_of_cons. right. apply elem_of_cons. by left.
  - intros resource -> ->. reflexivity.
Qed.

(** A run of C7 on a robot with a vision shim, a vision service and an arm. *)
Lemma FromRobot_resolves_witness :
  (exists e',
     FromRobot Examples.robot1 "nowhere" = Err e' /\
     errorKind e' = NotFound /\ errorNames e' = ["nowhere"]) /\
  (exists e',
     FromRobot Examples.robot1 "arm" = Err e' /\
     errorKind e' = UnimplementedInterface /\
     "*arm.reconfigurableArm" ∈ errorNames e') /\
  FromRobot Examples.robot1 "vision1" = Ok (VReconfigurableVision 0).
Proof.
  split; [| split].
  - apply (proj1 (FromRobot_resolves Examples.robot1 "nowhere")
             (ErrResourceNotFound (Named "nowhere"))).
    reflexivity.
  - apply (proj1 (proj2 (FromRobot_resolves Examples.robot1 "arm"))
             (VOther "*arm.reconfigurableArm")); reflexivity.
  - apply (proj2 (proj2 (FromRobot_resolves Examples.robot1 "vision1"))); reflexivity.
Defined.

(** ** Wrapping *)

(** C10.  Wrapping a value that is a shim already returns that shim and
    changes nothing; wrapping a value that does not satisfy [Service] fails
    with UnimplementedInterface, naming its Go type; and wrapping what a
    successful wrap returned returns it again. *)
Theorem WrapWithReconfigurable_idempotent :
  (forall (p : loc) (w : world),
      WrapWithReconfigurable (VReconfigurableVision p) w = (Ok (RVision p), w)) /\
  (forall (s : value) (w : world),
      satisfiesService s = false ->
      exists e,
        WrapWithReconfigurable s w = (Err e, w) /\
        errorKind e = UnimplementedInterface /\
        goTypeOf s ∈ errorNames e) /\
  (forall (s : value) (w w' : world) (x : Reconfigurable),
      WrapWithReconfigurable s w = (Ok x, w') ->
      WrapWithReconfigurable (asValue x) w' = (Ok x, w')).
Proof.
  repeat split.
  - intros s w Hs.
    destruct s; try discriminate Hs; eexists; repeat split; simpl;
      apply elem_of_cons; right; apply elem_of_cons; by left.
  - intros s w w' x H. destruct s; simpl in H; inversion H; subst; reflexivity.
Qed.

(** A run of C10: an arm is refused, and the shim made for a vision
    service is returned as it is when wrapped again. *)
Lemma WrapWithReconfigurable_idempotent_witness :
  (exists e,
     WrapWithReconfigurable (VOther "*arm.reconfigurableArm") Examples.world0
       = (Err e, Examples.world0) /\
     errorKind e = UnimplementedInterface /\
     "*arm.reconfigurableArm" ∈ errorNames e) /\
  (let '(x, w') :=
     WrapWithReconfigurable (VService (asService Examples.T0 Examples.mixed))
       Examples.world0 in
   match x with
   | Ok x => WrapWithReconfigurable (asValue x) w' = (Ok x, w')
   | Err _ => False
   end).
Proof.
  split.
  - apply (proj1 (proj2 WrapWithReconfigurable_idempotent)). reflexivity.
  - destruct (WrapWithReconfigurable (VService (asService Examples.T0 Examples.mixed))
                Examples.world0) as [x w'] eqn:E.
    destruct x as [x | e].
    + apply (proj2 (proj2 WrapWithReconfigurable_idempotent) _ _ _ _ E).
    + discriminate E.
Defined.

(** X15.  A service that is not a shim yet gets a new shim at a location
    that was unused, bound to it; the shims there were stay as they are. *)
Lemma WrapWithReconfigurable_fresh (svc : Service.t) (w : world) :
  exists p w',
    WrapWithReconfigurable (VService svc) w = (Ok (RVision p), w') /\
    shims w !! p = None /\
    shims w' !! p = Some {| actual := svc |} /\
    (forall q, q <> p -> shims w' !! q = shims w !! q).
Proof.
  exists (fresh (dom (shims w))). eexists. split; [reflexivity |]. simpl.
  split; [| split].
  - apply not_elem_of_dom, is_fresh.
  - apply lookup_insert_eq.
  - intros q Hq. by apply lookup_insert_ne.
Qed.

(** ** Schema introspection *)

(** C9 as stated fails: a type-tag may be registered with a nil schema, and
    then [GetModelParameterSchema] returns no schema. *)
Lemma GetModelParameterSchema_registered_nil :
  ~ (forall (T : tables) (modelType : VisModelType),
        is_Some (RegisteredModelParameterSchemas T !! modelType) ->
        exists schema, GetModelParameterSchema T modelType = Ok schema).
Proof.
  intros H.
  destruct (H Examples.T0 "tflite_classifier") as [schema Hs].
  - exists None. reflexivity.
  - vm_compute in Hs. discriminate Hs.
Qed.

(** C9, amended.  [GetModelParameterSchema] returns the schema of a
    type-tag that is registered with a schema; for a type-tag that is not
    registered, or is registered with nil, it fails with a NotFound error
    that names the type-tag. *)
Theorem GetModelParameterSchema_found_or_named (T : tables) (modelType : VisModelType) :
  (forall schema,
      RegisteredModelParameterSchemas T !! modelType = Some (Some schema) ->
      GetModelParameterSchema T modelType = Ok schema) /\
  (RegisteredModelParameterSchemas T !! modelType = None \/
   RegisteredModelParameterSchemas T !! modelType = Some None ->
   exists e,
     GetModelParameterSchema T modelType = Err e /\
     errorKind e = NotFound /\
     errorNames e = [modelType]).
Proof.
  unfold GetModelParameterSchema. split.
  - intros schema ->. reflexivity.
  - intros [-> | ->]; exists (ErrNoSchema modelType); repeat split.
Qed.

(** A run of C9: a tag with a schema, a tag that is absent, a tag with nil. *)
Lemma GetModelParameterSchema_found_or_named_witness :
  GetModelParameterSchema Examples.T0 "color_detector" = Ok "color detector schema" /\
  (exists e,
     GetModelParameterSchema Examples.T0 "tf_detector" = Err e /\
     errorKind e = NotFound /\ errorNames e = ["tf_detector"]) /\
  (exists e,
     GetModelParameterSchema Examples.T0 "tflite_classifier" = Err e /\
     errorKind e = NotFound /\ errorNames e = ["tflite_classifier"]).
Proof.
  split; [| split].
  - apply (proj1 (GetModelParameterSchema_found_or_named Examples.T0 "color_detector")).
    reflexivity.
  - apply (proj2 (GetModelParameterSchema_found_or_named Examples.T0 "tf_detector")).
    left. reflexivity.
  - apply (proj2 (GetModelParameterSchema_found_or_named Examples.T0 "tflite_classifier")).
    right. reflexivity.
Defined.

(** ** Removing a detector *)

(** X12.  When the detector and its segmenter are both registered and can
    be released, [RemoveDetector] removes both and succeeds, and touches no
    other model. *)
Lemma RemoveDetector_cascade (detectorName : string) (vs : visionService)
    (d s : registeredModel) :
  modReg vs !! detectorName = Some d ->
  (forall err, Closer d <> Some (Some err)) ->
  modReg vs !! (detectorName +:+ "_segmenter") = Some s ->
  (forall err, Closer s <> Some (Some err)) ->
  exists vs',
    RemoveDetector detectorName vs = (None, vs') /\
    (detectorName ∉ DetectorNames (modReg vs')) /\
    ((detectorName +:+ "_segmenter") ∉ SegmenterNames (modReg vs')) /\
    (forall k,
        k <> detectorName -> k <> detectorName +:+ "_segmenter" ->
        modReg vs' !! k = modReg vs !! k).
Proof.
  intros Hd Hdc Hs Hsc. unfold RemoveDetector, RemoveSegmenter.
  rewrite (removeVisModel_present _ _ _ Hd Hdc). simpl.
  rewrite (removeVisModel_present _ (delete detectorName (modReg vs)) s); [| | exact Hsc].
  - eexists. split; [reflexivity |]. simpl.
    assert (H1 : delete (detectorName +:+ "_segmenter") (delete detectorName (modReg vs))
                   !! detectorName = None).
    { rewrite lookup_delete_ne by (symmetry; apply segmenter_name_differs).
      apply lookup_delete_eq. }
    assert (H2 : delete (detectorName +:+ "_segmenter") (delete detectorName (modReg vs))
                   !! (detectorName +:+ "_segmenter") = None) by apply lookup_delete_eq.
    split; [| split].
    + unfold DetectorNames. rewrite elem_of_namesOfKind. intros (m & Hm & _). congruence.
    + unfold SegmenterNames. rewrite elem_of_namesOfKind. intros (m & Hm & _). congruence.
    + intros k Hk1 Hk2. by rewrite !lookup_delete_ne by congruence.
  - rewrite lookup_delete_ne by apply segmenter_name_differs. exact Hs.
Qed.

(** Whenever the detector itself is removed, what [RemoveDetector] returns
    is what removing the segmenter name returns. *)
Lemma RemoveDetector_returns_segmenter_removal (detectorName : string) (vs : visionService) :
  fst (removeVisModel detectorName (modReg vs)) = None ->
  fst (RemoveDetector detectorName vs) =
  fst (removeVisModel (detectorName +:+ "_segmenter") (modReg vs)).
Proof.
  intros H. unfold RemoveDetector, RemoveSegmenter.
  rewrite (removeVisModel_succeeded _ _ H). simpl.
  rewrite <- (removeVisModel_fst_delete (detectorName +:+ "_segmenter") detectorName)
    by (symmetry; apply segmenter_name_differs).
  by destruct (removeVisModel (detectorName +:+ "_segmenter") _).
Qed.

(** With no segmenter of the derived name, [RemoveDetector] removes the
    detector and returns the NotFound failure of the second removal. *)
Lemma RemoveDetector_absent_segmenter (detectorName : string) (vs : visionService)
    (d : registeredModel) :
  modReg vs !! detectorName = Some d ->
  (forall err, Closer d <> Some (Some err)) ->
  modReg vs !! (detectorName +:+ "_segmenter") = None ->
  RemoveDetector detectorName vs =
    (Some (ErrNoSuchModel (detectorName +:+ "_segmenter")),
     withModReg vs (delete detectorName (modReg vs))).
Proof.
  intros Hd Hdc Hs. unfold RemoveDetector, RemoveSegmenter.
  rewrite (removeVisModel_present _ _ _ Hd Hdc). simpl.
  rewrite removeVisModel_absent; [reflexivity |].
  rewrite lookup_delete_ne by apply segmenter_name_differs. exact Hs.
Qed.


(** ** Adding a detector *)

(** C4.  The factory of the detector-segmenter tag builds segmenters and
    the factory of the config's tag builds detectors.  Then after a
    successful [AddDetector] the name of the config is among the detectors
    and that name followed by "_segmenter" is among the segmenters; and when
    the detector was registered and adding the segmenter fails, [AddDetector]
    returns that failure and the detector is registered all the same. *)
Theorem AddDetector_adds_segmenter (T : tables) (cfg : VisModelConfig) (vs : visionService) :
  (forall build mm c x closer,
      modelFactories T !! DetectorSegmenter T = Some build ->
      build mm c = Ok (x, closer) -> kindOf x = Segmenter) ->
  (forall build mm x closer,
      modelFactories T !! Type_ cfg = Some build ->
      build mm cfg = Ok (x, closer) -> kindOf x = Detector) ->
  (forall vs',
      AddDetector T cfg vs = (None, vs') ->
      Name cfg ∈ DetectorNames (modReg vs') /\
      (Name cfg +:+ "_segmenter") ∈ SegmenterNames (modReg vs')) /\
  (forall mm1 e vs1,
      registerNewVisModels T (modReg vs) {| ModelRegistry := [cfg] |} = (None, mm1) ->
      AddSegmenter T (segmenterConfOf T cfg) (withModReg vs mm1) = (Some e, vs1) ->
      exists vs',
        AddDetector T cfg vs = (Some e, vs') /\
        Name cfg ∈ DetectorNames (modReg vs')).
Proof.
  intros Hseg Hdet. split.
  - intros vs' H. unfold AddDetector in H.
    destruct (registerNewVisModels T (modReg vs) {| ModelRegistry := [cfg] |})
      as [[e |] mm1] eqn:H1; [discriminate |].
    fold (segmenterConfOf T cfg) in H. unfold AddSegmenter in H.
    destruct (registerNewVisModels T (modReg (withModReg vs mm1))
                {| ModelRegistry := [segmenterConfOf T cfg] |}) as [e2 mm2] eqn:H2.
    injection H as -> <-. simpl in *.
    apply registerNewVisModels_one_ok in H1 as (b1 & x1 & c1 & Hb1 & Hx1 & ->).
    apply registerNewVisModels_one_ok in H2 as (b2 & x2 & c2 & Hb2 & Hx2 & ->).
    simpl in *. unfold DetectorNames, SegmenterNames. rewrite !elem_of_namesOfKind. split.
    + eexists. split.
      * rewrite lookup_insert_ne by (symmetry; apply segmenter_name_differs).
        apply lookup_insert_eq.
      * unfold ModelKindOf. simpl. eapply Hdet; eassumption.
    + eexists. split; [apply lookup_insert_eq |].
      unfold ModelKindOf. simpl. eapply Hseg; eassumption.
  - intros mm1 e vs1 H1 H2. unfold AddDetector. rewrite H1.
    fold (segmenterConfOf T cfg). rewrite H2. exists vs1. split; [reflexivity |].
    unfold AddSegmenter in H2.
    destruct (registerNewVisModels T (modReg (withModReg vs mm1))
                {| ModelRegistry := [segmenterConfOf T cfg] |}) as [e2 mm2] eqn:H3.
    injection H2 as -> <-. apply registerNewVisModels_one_failed in H3 as ->. simpl.
    apply registerNewVisModels_one_ok in H1 as (b1 & x1 & c1 & Hb1 & Hx1 & ->).
    unfold DetectorNames. rewrite elem_of_namesOfKind. eexists. split.
    + apply lookup_insert_eq.
    + unfold ModelKindOf. simpl. eapply Hdet; eassumption.
Qed.

Lemma T0_builds_detectors (build : factory) (mm : modelMap)
    (x : executable) (closer : option (option error)) :
  modelFactories Examples.T0 !! Type_ Examples.d1Config = Some build ->
  build mm Examples.d1Config = Ok (x, closer) -> kindOf x = Detector.
Proof.
  intros Hb. change (Some Examples.colorDetector = Some build) in Hb.
  injection Hb as <-. unfold Examples.colorDetector. by intros [= <- _].
Qed.

Lemma T0_builds_segmenters (build : factory) (mm : modelMap) (c : VisModelConfig)
    (x : executable) (closer : option (option error)) :
  modelFactories Examples.T0 !! DetectorSegmenter Examples.T0 = Some build ->
  build mm c = Ok (x, closer) -> kindOf x = Segmenter.
Proof.
  intros Hb. change (Some Examples.detectorSegmenter = Some build) in Hb.
  injection Hb as <-. unfold Examples.detectorSegmenter.
  destruct (Examples.lookupParam _ _) as [[d | z | q] |]; try discriminate.
  destruct (modelLookup d mm) as [m | e]; [| discriminate].
  destruct (toDetector m); [| discriminate]. by intros [= <- _].
Qed.

Lemma T1_builds_detectors (build : factory) (mm : modelMap)
    (x : executable) (closer : option (option error)) :
  modelFactories Examples.T1 !! Type_ Examples.d1Config = Some build ->
  build mm Examples.d1Config = Ok (x, closer) -> kindOf x = Detector.
Proof.
  intros Hb. change (Some Examples.colorDetector = Some build) in Hb.
  injection Hb as <-. unfold Examples.colorDetector. by intros [= <- _].
Qed.

Lemma T1_builds_no_segmenter (build : factory) (mm : modelMap) (c : VisModelConfig)
    (x : executable) (closer : option (option error)) :
  modelFactories Examples.T1 !! DetectorSegmenter Examples.T1 = Some build ->
  build mm c = Ok (x, closer) -> kindOf x = Segmenter.
Proof.
  intros Hb.
  change (Some ((fun _ _ => Err (ErrUpstream "no point cloud support")) : factory)
          = Some build) in Hb.
  injection Hb as <-. discriminate.
Qed.

(** A run of C4: with the tables [T0] both models are added; with [T1],
    where no segmenter can be built, the failure is returned and the
    detector stays. *)
Lemma AddDetector_adds_segmenter_witness :
  ("d1" ∈ DetectorNames (modReg (snd (AddDetector Examples.T0 Examples.d1Config
                                         Examples.emptyService))) /\
   "d1_segmenter" ∈ SegmenterNames (modReg (snd (AddDetector Examples.T0 Examples.d1Config
                                                   Examples.emptyService)))) /\
  (exists vs',
     AddDetector Examples.T1 Examples.d1Config Examples.emptyService
       = (Some (ErrUpstream "no point cloud support"), vs') /\
     "d1" ∈ DetectorNames (modReg vs')).
Proof.
  split.
  - apply (proj1 (AddDetector_adds_segmenter Examples.T0 Examples.d1Config
                    Examples.emptyService T0_builds_segmenters T0_builds_detectors)).
    reflexivity.
  - apply (proj2 (AddDetector_adds_segmenter Examples.T1 Examples.d1Config
                    Examples.emptyService T1_builds_no_segmenter T1_builds_detectors)
             (modReg Examples.onlyDetector)
             (ErrUpstream "no point cloud support")
             Examples.onlyDetector);
      reflexivity.
Defined.

(** ** Teardown *)

Lemma lookup_after_delete (mm : modelMap) (name k : string) (done : list string) :
  (if decide (k ∈ done) then None else delete name mm !! k) =
  (if decide (k ∈ name :: done) then None else mm !! k).
Proof.
  destruct (decide (k = name)) as [-> | Hne].
  - rewrite lookup_delete_eq.
    rewrite (decide_True (P := name ∈ name :: done)) by (apply elem_of_cons; by left).
    by destruct (decide (name ∈ done)).
  - rewrite lookup_delete_ne by congruence.
    destruct (decide (k ∈ done)) as [Hk | Hk].
    + by rewrite decide_True by (apply elem_of_cons; by right).
    + rewrite decide_False; [reflexivity |].
      intros [-> | Hk']%elem_of_cons; [by apply Hne | by apply Hk].
Qed.

(** The loop for any enumeration of names without repetition: if every
    removal succeeds, every enumerated name is gone. *)
Lemma closeLoop_succeeds (models : list string) :
  forall mm : modelMap,
    NoDup models ->
    (forall name, name ∈ models -> fst (removeVisModel name mm) = None) ->
    exists mm',
      closeLoop models mm = (None, mm') /\
      forall k, mm' !! k = if decide (k ∈ models) then None else mm !! k.
Proof.
  induction models as [| name rest IH]; intros mm Hnd Hall.
  - exists mm. split; [reflexivity |]. intros k.
    rewrite decide_False; [reflexivity | apply not_elem_of_nil].
  - apply NoDup_cons in Hnd as [Hnotin Hnd].
    destruct (IH (delete name mm) Hnd) as (mm' & Hloop & Hmm').
    { intros k Hk. rewrite removeVisModel_fst_delete by (intros ->; by apply Hnotin).
      apply Hall. apply elem_of_cons. by right. }
    exists mm'. split.
    { cbn [closeLoop].
      by rewrite (removeVisModel_succeeded name mm)
        by (apply Hall, elem_of_cons; by left). }
    intros k. rewrite Hmm'. apply lookup_after_delete.
Qed.

(** The loop stops at the first removal that fails: the names before it
    are gone, the map is otherwise as it was. *)
Lemma closeLoop_fails (done : list string) :
  forall (mm : modelMap) (failing : string) (rest : list string) (err : error),
    NoDup (done ++ failing :: rest) ->
    (forall name, name ∈ done -> fst (removeVisModel name mm) = None) ->
    fst (removeVisModel failing mm) = Some err ->
    exists mm',
      closeLoop (done ++ failing :: rest) mm = (Some err, mm') /\
      forall k, mm' !! k = if decide (k ∈ done) then None else mm !! k.
Proof.
  induction done as [| name done IH]; intros mm failing rest err Hnd Hdone Hfail.
  - exists mm. split.
    + simpl. by rewrite (removeVisModel_failed _ _ _ Hfail).
    + intros k. rewrite decide_False; [reflexivity | apply not_elem_of_nil].
  - change ((name :: done) ++ failing :: rest) with (name :: (done ++ failing :: rest)) in *.
    apply NoDup_cons in Hnd as [Hnotin Hnd].
    assert (Hfresh : forall k, k ∈ done ++ failing :: rest -> k <> name)
      by (intros k Hk ->; by apply Hnotin).
    destruct (IH (delete name mm) failing rest err Hnd) as (mm' & Hloop & Hmm').
    { intros k Hk. rewrite removeVisModel_fst_delete.
      - apply Hdone, elem_of_cons. by right.
      - apply Hfresh, elem_of_app. by left. }
    { rewrite removeVisModel_fst_delete; [exact Hfail |].
      apply Hfresh, elem_of_app. right. apply elem_of_cons. by left. }
    exists mm'. split.
    { cbn [closeLoop].
      by rewrite (removeVisModel_succeeded name mm)
        by (apply Hdone, elem_of_cons; by left). }
    intros k. rewrite Hmm'. apply lookup_after_delete.
Qed.

Lemma first_failure (mm : modelMap) (models : list string) :
  (exists name, name ∈ models /\ fst (removeVisModel name mm) <> None) ->
  exists done failing rest err,
    models = done ++ failing :: rest /\
    (forall name, name ∈ done -> fst (removeVisModel name mm) = None) /\
    fst (removeVisModel failing mm) = Some err.
Proof.
  induction models as [| name models IH]; intros (bad & Hin & Hbad).
  - by apply elem_of_nil in Hin.
  - destruct (fst (removeVisModel name mm)) as [err |] eqn:Hname.
    + exists [], name, models, err. repeat split; [| exact Hname].
      intros k Hk. by apply elem_of_nil in Hk.
    + destruct IH as (done & failing & rest & err & -> & Hdone & Hfail).
      { exists bad. split; [| exact Hbad].
        apply elem_of_cons in Hin as [-> | Hin]; [congruence | exact Hin]. }
      exists (name :: done), failing, rest, err. repeat split; [| exact Hfail].
      intros k Hk. apply elem_of_cons in Hk as [-> | Hk]; [exact Hname | by apply Hdone].
Qed.

(** C5.  [Close] removes the registered models one after the other.  If
    every removal succeeds it returns success and the lists of detector,
    classifier and segmenter names are empty afterwards.  If some removal
    fails, the names split into those processed, the first one whose removal
    fails, and the rest: [Close] returns the error of that removal, the
    models processed are gone, and the rest is registered as before. *)
Theorem Close_removes_until_first_failure (vs : visionService) :
  ((forall name,
       name ∈ modelNames (modReg vs) -> fst (removeVisModel name (modReg vs)) = None) ->
   exists vs',
     Close vs = (None, vs') /\
     DetectorNames (modReg vs') = [] /\
     ClassifierNames (modReg vs') = [] /\
     SegmenterNames (modReg vs') = []) /\
  ((exists name,
       name ∈ modelNames (modReg vs) /\ fst (removeVisModel name (modReg vs)) <> None) ->
   exists done failing rest err vs',
     modelNames (modReg vs) = done ++ failing :: rest /\
     (forall name, name ∈ done -> fst (removeVisModel name (modReg vs)) = None) /\
     fst (removeVisModel failing (modReg vs)) = Some err /\
     Close vs = (Some err, vs') /\
     (forall name, name ∈ done -> modReg vs' !! name = None) /\
     (forall name,
         name ∈ rest ->
         is_Some (modReg vs !! name) /\ modReg vs' !! name = modReg vs !! name)).
Proof.
  split.
  - intros Hall.
    destruct (closeLoop_succeeds _ (modReg vs) (NoDup_modelNames _) Hall) as (mm' & Hloop & Hmm').
    exists (withModReg vs mm'). unfold Close. rewrite Hloop. split; [reflexivity |].
    apply names_of_empty. intros k. simpl. rewrite Hmm'. case_decide as Hk; [reflexivity |].
    rewrite elem_of_modelNames in Hk. by apply eq_None_not_Some.
  - intros Hbad.
    destruct (first_failure _ _ Hbad) as (done & failing & rest & err & Hsplit & Hdone & Hfail).
    pose proof (NoDup_modelNames (modReg vs)) as Hnd. rewrite Hsplit in Hnd.
    destruct (closeLoop_fails done (modReg vs) failing rest err Hnd Hdone Hfail)
      as (mm' & Hloop & Hmm').
    exists done, failing, rest, err, (withModReg vs mm').
    split; [exact Hsplit |]. split; [exact Hdone |]. split; [exact Hfail |].
    split; [unfold Close; by rewrite Hsplit, Hloop |]. simpl. split.
    + intros k Hk. rewrite Hmm'. by rewrite decide_True.
    + intros k Hk. split.
      * apply elem_of_modelNames. rewrite Hsplit.
        apply elem_of_app. right. apply elem_of_cons. by right.
      * rewrite Hmm'. rewrite decide_False; [reflexivity |].
        intros Hk'. apply NoDup_app in Hnd as (_ & Hdisj & _).
        apply (Hdisj k Hk'). apply elem_of_cons. by right.
Qed.

Lemma mixed_all_removable (name : string) :
  name ∈ modelNames (modReg Examples.mixed) ->
  fst (removeVisModel name (modReg Examples.mixed)) = None.
Proof.
  change (modelNames (modReg Examples.mixed)) with ["s1"; "c1"; "d1"].
  intros H. repeat (apply elem_of_cons in H as [-> | H]; [reflexivity |]).
  by apply elem_of_nil in H.
Qed.

(** A run of C5: three models of mixed kinds, all removable, and three
    models of which "c1" cannot be released. *)
Lemma Close_removes_until_first_failure_witness :
  (exists vs',
     Close Examples.mixed = (None, vs') /\
     DetectorNames (modReg vs') = [] /\
     ClassifierNames (modReg vs') = [] /\
     SegmenterNames (modReg vs') = []) /\
  (exists done failing rest err vs',
     modelNames (modReg Examples.oneStuck) = done ++ failing :: rest /\
     (forall name,
         name ∈ done -> fst (removeVisModel name (modReg Examples.oneStuck)) = None) /\
     fst (removeVisModel failing (modReg Examples.oneStuck)) = Some err /\
     Close Examples.oneStuck = (Some err, vs') /\
     (forall name, name ∈ done -> modReg vs' !! name = None) /\
     (forall name,
         name ∈ rest ->
         is_Some (modReg Examples.oneStuck !! name) /\
         modReg vs' !! name = modReg Examples.oneStuck !! name)).
Proof.
  split.
  - apply (proj1 (Close_removes_until_first_failure Examples.mixed)).
    exact mixed_all_removable.
  - apply (proj2 (Close_removes_until_first_failure Examples.oneStuck)).
    exists "c1". split.
    + change (modelNames (modReg Examples.oneStuck)) with ["s1"; "c1"; "d1"].
      apply elem_of_cons. right. apply elem_of_cons. by left.
    + discriminate.
Defined.

(** What the second run amounts to: "s1" is removed, "c1" fails, "d1"
    was not reached. *)
Example Close_oneStuck :
  fst (Close Examples.oneStuck) = Some (ErrUpstream "engine busy") /\
  modelNames (modReg (snd (Close Examples.oneStuck))) = ["c1"; "d1"].
Proof. vm_compute. split; reflexivity. Qed.

(** ** Classification *)

Lemma insertByScore_Permutation (c : Classification) (cc : Classifications) :
  insertByScore c cc ≡ₚ c :: cc.
Proof.
  induction cc as [| d rest IH]; simpl; [reflexivity |].
  destruct (Qle_bool (Score d) (Score c)); [reflexivity |].
  rewrite IH. apply Permutation_swap.
Qed.

Lemma sortByScore_Permutation (cc : Classifications) : sortByScore cc ≡ₚ cc.
Proof.
  induction cc as [| c rest IH]; simpl; [reflexivity |].
  rewrite insertByScore_Permutation. by rewrite IH.
Qed.

Lemma insertByScore_sorted (c : Classification) (cc : Classifications) :
  StronglySorted byDescendingScore cc ->
  StronglySorted byDescendingScore (insertByScore c cc).
Proof.
  induction 1 as [| d rest Hsorted IH Hd]; simpl.
  - repeat constructor.
  - destruct (Qle_bool (Score d) (Score c)) eqn:Hle.
    + apply Qle_bool_iff in Hle. constructor; [by constructor |].
      constructor; [exact Hle |].
      eapply Forall_impl; [exact Hd |]. intros x Hx. unfold byDescendingScore in *.
      by apply Qle_trans with (Score d).
    + constructor; [exact IH |].
      assert (Hlt : (Score c <= Score d)%Q).
      { destruct (Qlt_le_dec (Score c) (Score d)) as [Hlt | Hge].
        - by apply Qlt_le_weak.
        - apply Qle_bool_iff in Hge. congruence. }
      rewrite insertByScore_Permutation. by constructor.
Qed.

Lemma sortByScore_sorted (cc : Classifications) :
  StronglySorted byDescendingScore (sortByScore cc).
Proof.
  induction cc as [| c rest IH]; simpl; [constructor |].
  by apply insertByScore_sorted.
Qed.

Lemma StronglySorted_take {A} (R : A -> A -> Prop) (k : nat) (l : list A) :
  StronglySorted R l -> StronglySorted R (take k l).
Proof.
  intros H. revert k. induction H as [| x l Hl IH Hx]; intros [| k]; simpl; try constructor.
  - apply IH.
  - by apply Forall_take.
Qed.

Lemma StronglySorted_app_dominates {A} (R : A -> A -> Prop) (l1 l2 : list A) :
  StronglySorted R (l1 ++ l2) -> forall a b, a ∈ l1 -> b ∈ l2 -> R a b.
Proof.
  intros Hs a b Ha Hb. induction l1 as [| x l1 IH]; [by apply elem_of_nil in Ha |].
  simpl in Hs. apply StronglySorted_inv in Hs as [Hs Hx].
  apply elem_of_cons in Ha as [-> | Ha].
  - rewrite Forall_forall in Hx. apply Hx. apply elem_of_app. by right.
  - apply IH; [exact Hs | exact Ha].
Qed.

(** The top-N reduction: [min(n, available)] entries in descending order,
    which together with the entries left out are the full output, and none
    of those left out has a higher confidence than one that was kept. *)
Lemma TopN_reduces (n : Z) (full : Classifications) :
  (0 <= n)%Z ->
  exists top rest,
    TopN n full = Ok top /\
    Z.of_nat (length top) = Z.min n (Z.of_nat (length full)) /\
    StronglySorted byDescendingScore top /\
    full ≡ₚ top ++ rest /\
    (forall a b, a ∈ top -> b ∈ rest -> (Score b <= Score a)%Q).
Proof.
  intros Hn. unfold TopN.
  set (k := Z.to_nat (Z.min n (Z.of_nat (length full)))).
  exists (take k (sortByScore full)), (drop k (sortByScore full)).
  split; [reflexivity |].
  assert (Hlen : length (sortByScore full) = length full)
    by (apply Permutation_length, sortByScore_Permutation).
  split; [| split; [| split]].
  - rewrite length_take, Hlen. unfold k. lia.
  - apply StronglySorted_take, sortByScore_sorted.
  - rewrite take_drop. symmetry. apply sortByScore_Permutation.
  - apply (StronglySorted_app_dominates byDescendingScore).
    rewrite take_drop. apply sortByScore_sorted.
Qed.

(** C6.  The registry holds a classifier under [classifierName], and on
    the image it yields the full output [full] of [k] entries; [n] is a
    bound, so not negative.  Then [GetClassifications] returns the top-n
    reduction of [full]: exactly [min(n, k)] entries, in order of
    non-increasing confidence, none of the entries left out ranking above
    one that is returned.  [GetClassificationsFromCamera] returns the same
    for the image read from the camera. *)
Theorem GetClassifications_returns_topN
    (vs : visionService) (img : Image) (cameraName classifierName : string) (n : Z)
    (c : registeredModel) (classifier : Image -> result Classifications)
    (full : Classifications) :
  modReg vs !! classifierName = Some c ->
  Model c = ClassifierFn classifier ->
  classifier img = Ok full ->
  (0 <= n)%Z ->
  exists top rest,
    GetClassifications img classifierName n vs = Ok top /\
    (forall cam,
        camera_FromRobot (r vs) cameraName = Ok cam ->
        ReadImage cam = Ok img ->
        GetClassificationsFromCamera cameraName classifierName n vs = Ok top) /\
    TopN n full = Ok top /\
    Z.of_nat (length top) = Z.min n (Z.of_nat (length full)) /\
    StronglySorted byDescendingScore top /\
    full ≡ₚ top ++ rest /\
    (forall a b, a ∈ top -> b ∈ rest -> (Score b <= Score a)%Q).
Proof.
  intros Hc Hm Hfull Hn.
  destruct (TopN_reduces n full Hn) as (top & rest & Htop & Hlen & Hsorted & Hperm & Hdom).
  exists top, rest.
  assert (Hlookup : modelLookup classifierName (modReg vs) = Ok c)
    by (unfold modelLookup; by rewrite Hc).
  assert (Hto : toClassifier c = Ok classifier) by (unfold toClassifier; by rewrite Hm).
  split; [| split].
  - unfold GetClassifications. by rewrite Hlookup, Hto, Hfull.
  - intros cam Hcam Himg. unfold GetClassificationsFromCamera.
    by rewrite Hcam, Hlookup, Hto, Himg, Hfull.
  - by repeat split.
Qed.

(** A run of C6: five candidate labels, the top three. *)
Lemma GetClassifications_returns_topN_witness :
  exists top rest,
    GetClassifications 42%nat "c1" 3 Examples.mixed = Ok top /\
    (forall cam,
        camera_FromRobot (r Examples.mixed) "front" = Ok cam ->
        ReadImage cam = Ok 42%nat ->
        GetClassificationsFromCamera "front" "c1" 3 Examples.mixed = Ok top) /\
    TopN 3 Examples.scores = Ok top /\
    Z.of_nat (length top) = Z.min 3 (Z.of_nat (length Examples.scores)) /\
    StronglySorted byDescendingScore top /\
    Examples.scores ≡ₚ top ++ rest /\
    (forall a b, a ∈ top -> b ∈ rest -> (Score b <= Score a)%Q).
Proof.
  apply (GetClassifications_returns_topN Examples.mixed 42%nat "front" "c1" 3
           (Examples.classifierModel "c1") (fun _ => Ok Examples.scores) Examples.scores).
  - reflexivity.
  - reflexivity.
  - reflexivity.
  - lia.
Defined.

Example GetClassifications_top3 :
  GetClassifications 42%nat "c1" 3 Examples.mixed =
    Ok [NewClassification "dog" (9 # 10); NewClassification "fox" (9 # 10);
        NewClassification "bee" (5 # 10)] /\
  GetClassificationsFromCamera "front" "c1" 3 Examples.mixed =
    GetClassifications 42%nat "c1" 3 Examples.mixed /\
  GetClassifications 42%nat "c1" 9 Examples.mixed = Ok (sortByScore Examples.scores) /\
  errorKind <$> (match GetClassifications 42%nat "d1" 3 Examples.mixed with
                 | Err e => Some e
                 | Ok _ => None
                 end) = Some TypeMismatch.
Proof. vm_compute. repeat split. Qed.

(** ** Locking *)

Module LockingProofs.
Import Locking.

Section Interleavings.

Context {A : Type}.
Variables old new : A.

Lemma inside_insert (rs : list (reader A)) (i : nat) (x y : reader A) :
  rs !! i = Some x ->
  inside (<[i := y]> rs) + (if readerInside x then 1 else 0) =
  inside rs + (if readerInside y then 1 else 0).
Proof.
  revert i. induction rs as [| rd rest IH]; intros [| i] H; simpl in *; try discriminate.
  - injection H as ->. lia.
  - specialize (IH i H). lia.
Qed.

Lemma inside_zero (rs : list (reader A)) (i : nat) (rd : reader A) :
  inside rs = 0 -> rs !! i = Some rd -> readerInside rd = false.
Proof.
  revert i. induction rs as [| x rest IH]; intros [| i] H0 H; simpl in *; try discriminate.
  - injection H as ->. destruct (readerInside rd); [lia | reflexivity].
  - apply (IH i); [| exact H]. destruct (readerInside x); lia.
Qed.

(** A reader that does not hold the lock does not depend on what the
    shim is bound to. *)
Lemma readerOk_outside (a b : A) (rd : reader A) :
  readerInside rd = false -> readerOk old new a rd -> readerOk old new b rd.
Proof. unfold readerInside, readerOk. destruct (rpc rd); try discriminate; auto. Qed.

Lemma Inv_init (n : nat) : Inv old new (init old n).
Proof.
  split; simpl.
  - induction n as [| n IH]; simpl; [reflexivity | exact IH].
  - reflexivity.
  - reflexivity.
  - reflexivity.
  - apply Forall_replicate. split; reflexivity.
Qed.

Lemma Inv_readerAdvance (i : nat) (s : state A) :
  Inv old new s -> Inv old new (readerAdvance i s).
Proof.
  intros HI. pose proof HI as [Hc Hw He Ha Hr]. unfold readerAdvance.
  destruct (readers s !! i) as [rd |] eqn:Hi; [| exact HI].
  pose proof (Forall_lookup_1 _ _ _ _ Hr Hi) as Hrd.
  destruct (rpc rd) eqn:Hpc.
  - unfold RLock. destruct (writerHeld (mu s)) eqn:Hheld; [exact HI |].
    split; simpl.
    + pose proof (inside_insert (readers s) i rd
                    {| rpc := RLocked; target := target rd; seen := seen rd |} Hi) as Hins.
      unfold readerInside in Hins at 1 2. simpl in Hins. rewrite Hpc in Hins. lia.
    + congruence.
    + discriminate.
    + exact Ha.
    + apply Forall_insert; [exact Hr |]. unfold readerOk in *. rewrite Hpc in Hrd. exact Hrd.
  - split; simpl; try assumption.
    + pose proof (inside_insert (readers s) i rd
                    {| rpc := RCalling; target := Some (shimActual s); seen := [] |} Hi)
        as Hins.
      unfold readerInside in Hins at 1 2. simpl in Hins. rewrite Hpc in Hins. lia.
    + apply Forall_insert; [exact Hr |]. unfold readerOk. simpl.
      split; [reflexivity | constructor].
  - split; simpl; try assumption.
    + pose proof (inside_insert (readers s) i rd
                    {| rpc := RReturned; target := target rd; seen := seen rd |} Hi) as Hins.
      unfold readerInside in Hins at 1 2. simpl in Hins. rewrite Hpc in Hins. lia.
    + apply Forall_insert; [exact Hr |]. unfold readerOk in *. rewrite Hpc in Hrd. exact Hrd.
  - unfold RUnlock. destruct (readerCount (mu s)) as [| k] eqn:Hk; [exact HI |].
    pose proof (inside_insert (readers s) i rd
                  {| rpc := RDone; target := target rd; seen := seen rd |} Hi) as Hins.
    unfold readerInside in Hins at 1 2. simpl in Hins. rewrite Hpc in Hins.
    assert (Hheld : writerHeld (mu s) = false).
    { destruct (writerHeld (mu s)); [| reflexivity]. specialize (He eq_refl). lia. }
    split; simpl.
    + lia.
    + exact Hw.
    + rewrite Hheld. discriminate.
    + exact Ha.
    + apply Forall_insert; [exact Hr |]. unfold readerOk in *. rewrite Hpc in Hrd. simpl.
      destruct Hrd as [Ht Hs]. exists (shimActual s). split; [exact Ht |]. split; [| exact Hs].
      rewrite Ha. destruct (swapped (wpc s)); auto.
  - exact HI.
Qed.

Lemma Inv_readerWork (i : nat) (s : state A) :
  Inv old new s -> Inv old new (readerWork i s).
Proof.
  intros HI. pose proof HI as [Hc Hw He Ha Hr]. unfold readerWork.
  destruct (readers s !! i) as [rd |] eqn:Hi; [| exact HI].
  pose proof (Forall_lookup_1 _ _ _ _ Hr Hi) as Hrd.
  destruct (rpc rd) eqn:Hpc; try exact HI.
  split; simpl; try assumption.
  - pose proof (inside_insert (readers s) i rd
                  {| rpc := RCalling; target := target rd; seen := shimActual s :: seen rd |}
                  Hi) as Hins.
    unfold readerInside in Hins at 1 2. simpl in Hins. rewrite Hpc in Hins. lia.
  - apply Forall_insert; [exact Hr |]. unfold readerOk in *. rewrite Hpc in Hrd. simpl.
    destruct Hrd as [Ht Hs]. split; [exact Ht | by constructor].
Qed.

(** The swap happens while no reader holds the lock, so no call in
    progress depends on the value that is replaced. *)
Lemma Inv_writerAdvance (s : state A) :
  Inv old new s -> Inv old new (writerAdvance new s).
Proof.
  intros HI. pose proof HI as [Hc Hw He Ha Hr]. unfold writerAdvance.
  destruct (wpc s) eqn:Hpc; simpl in *.
  - unfold Lock. destruct (writerHeld (mu s)) eqn:Hheld; [exact HI |].
    destruct (readerCount (mu s)) eqn:Hk; [| exact HI].
    split; simpl; try assumption; reflexivity.
  - split; simpl; assumption.
  - split; simpl; try assumption; try reflexivity.
    specialize (He Hw). rewrite Hc in He.
    apply Forall_lookup_2. intros i rd Hi.
    apply (readerOk_outside (shimActual s)).
    + by apply (inside_zero (readers s) i).
    + by apply (Forall_lookup_1 _ _ _ _ Hr Hi).
  - unfold Unlock. rewrite Hw. split; simpl; try assumption; try reflexivity.
    discriminate.
  - exact HI.
Qed.

Lemma Inv_run (schedule : list event) :
  forall s, Inv old new s -> Inv old new (run new schedule s).
Proof.
  induction schedule as [| e schedule IH]; intros s H; [exact H |].
  simpl. apply IH. destruct e; simpl.
  - by apply Inv_readerAdvance.
  - by apply Inv_readerWork.
  - by apply Inv_writerAdvance.
Qed.

(** What one call saw is one value, the old actual or the new one. *)
Lemma readerOk_observed (a : A) (rd : reader A) :
  a = old \/ a = new ->
  readerOk old new a rd ->
  exists c,
    (c = old \/ c = new) /\
    (readerInside rd = true -> c = a) /\
    forall x, x ∈ observed rd -> x = c.
Proof.
  intros Ha Hrd. unfold readerOk, observed, readerInside in *. destruct (rpc rd).
  - destruct Hrd as [-> ->]. exists old. repeat split; auto; try discriminate.
    intros x Hin. by apply elem_of_nil in Hin.
  - destruct Hrd as [-> ->]. exists a. repeat split; auto.
    intros x Hin. by apply elem_of_nil in Hin.
  - destruct Hrd as [-> Hs]. exists a. repeat split; auto.
    intros x Hin. apply elem_of_cons in Hin as [-> | Hin]; [reflexivity |].
    rewrite Forall_forall in Hs. symmetry. by apply Hs.
  - destruct Hrd as [-> Hs]. exists a. repeat split; auto.
    intros x Hin. apply elem_of_cons in Hin as [-> | Hin]; [reflexivity |].
    rewrite Forall_forall in Hs. symmetry. by apply Hs.
  - destruct Hrd as (b & -> & Hb & Hs). exists b. repeat split; auto; try discriminate.
    intros x Hin. apply elem_of_cons in Hin as [-> | Hin]; [reflexivity |].
    rewrite Forall_forall in Hs. symmetry. by apply Hs.
Qed.

End Interleavings.

(** C8.  [n] threads each run one delegated call on a shim bound to
    [old], one thread runs [Reconfigure] to [new], and the schedule
    interleaves their steps in any way.  In the state reached, every call
    has seen one value only, at its load of [actual] and at every moment
    after it; that value is [old] or [new]; while the call holds the lock
    it is the value the shim is bound to; and while [Reconfigure] holds the
    lock no call does. *)
Theorem delegated_calls_never_see_a_torn_actual
    (A : Type) (n : nat) (old new : A) (schedule : list event) :
  let s := run new schedule (init old n) in
  (forall i rd,
      readers s !! i = Some rd ->
      (forall a b, a ∈ observed rd -> b ∈ observed rd -> a = b) /\
      (forall a, a ∈ observed rd -> a = old \/ a = new) /\
      (readerInside rd = true -> forall a, a ∈ observed rd -> a = shimActual s)) /\
  (writerInside (wpc s) = true ->
   forall i rd, readers s !! i = Some rd -> readerInside rd = false).
Proof.
  intros s. pose proof (Inv_run old new schedule _ (Inv_init old new n)) as HI.
  fold s in HI. destruct HI as [Hc Hw He Ha Hr]. split.
  - intros i rd Hi. pose proof (Forall_lookup_1 _ _ _ _ Hr Hi) as Hrd.
    destruct (readerOk_observed old new (shimActual s) rd) as (c & Hc' & Hcur & Hall).
    { rewrite Ha. destruct (swapped (wpc s)); auto. }
    { exact Hrd. }
    repeat split.
    + intros a b Ha' Hb'. by rewrite (Hall a Ha'), (Hall b Hb').
    + intros a Ha'. by rewrite (Hall a Ha').
    + intros Hin a Ha'. rewrite (Hall a Ha'). by apply Hcur.
  - intros Hin i rd Hi. rewrite <- Hw in Hin. specialize (He Hin). rewrite Hc in He.
    by apply (inside_zero (readers s) i).
Qed.

(** A run of C8: reader 0 holds the lock and has worked for a moment while
    the reconfiguring thread is blocked; what it has seen is the old
    service, which is what the shim is still bound to. *)
Lemma delegated_calls_never_see_a_torn_actual_witness :
  let s := run 2%nat [ReaderAdvance 0; ReaderAdvance 0; WriterAdvance; ReaderWork 0]
             (init 1%nat 2) in
  (forall a b,
      a ∈ [1%nat; 1%nat] -> b ∈ [1%nat; 1%nat] -> a = b) /\
  (forall a, a ∈ [1%nat; 1%nat] -> a = 1%nat \/ a = 2%nat) /\
  (forall a, a ∈ [1%nat; 1%nat] -> a = shimActual s).
Proof.
  intros s.
  destruct (proj1 (delegated_calls_never_see_a_torn_actual nat 2 1%nat 2%nat
                     [ReaderAdvance 0; ReaderAdvance 0; WriterAdvance; ReaderWork 0])
              0%nat {| rpc := RCalling; target := Some 1%nat; seen := [1%nat] |} eq_refl)
    as (H1 & H2 & H3).
  split; [exact H1 |]. split; [exact H2 |]. exact (H3 eq_refl).
Defined.

(** Two readers and a reconfigure from service 1 to service 2.  Reader 0
    enters first and the reconfiguring thread has to wait for it: reader 0
    sees the old service throughout, reader 1 sees the new one. *)
Example reader_before_and_after_the_swap :
  let schedule :=
    [ReaderAdvance 0; ReaderAdvance 0; WriterAdvance; ReaderWork 0; WriterAdvance;
     ReaderAdvance 0; ReaderAdvance 0;
     WriterAdvance; ReaderAdvance 1; WriterAdvance; WriterAdvance; WriterAdvance;
     ReaderAdvance 1; ReaderAdvance 1; ReaderWork 1; ReaderAdvance 1; ReaderAdvance 1] in
  let s := run 2%nat schedule (init 1%nat 2) in
  (observed <$> readers s) = [[1%nat; 1%nat]; [2%nat; 2%nat]] /\
  (rpc <$> readers s) = [RDone; RDone] /\
  wpc s = WDone /\
  closed s = [1%nat].
Proof. vm_compute. repeat split. Qed.

End LockingProofs.

(** * Further properties of the vision service *)

(** ** Reading from a camera *)

(** X1.  When the camera resolves and yields a frame,
    [GetDetectionsFromCamera] is [GetDetections] on that frame, whatever the
    registry holds. *)
Theorem GetDetectionsFromCamera_is_GetDetections_on_the_frame
    (vs : visionService) (cameraName detectorName : string) (cam : Camera) (img : Image) :
  camera_FromRobot (r vs) cameraName = Ok cam ->
  ReadImage cam = Ok img ->
  GetDetectionsFromCamera cameraName detectorName vs = GetDetections img detectorName vs.
Proof.
  intros Hcam Himg. unfold GetDetectionsFromCamera, GetDetections. rewrite Hcam.
  destruct (modelLookup detectorName (modReg vs)) as [d | e]; [| reflexivity].
  destruct (toDetector d) as [detector | e]; [| reflexivity].
  by rewrite Himg.
Qed.

Lemma GetDetectionsFromCamera_is_GetDetections_on_the_frame_witness :
  GetDetectionsFromCamera "front" "d1" Examples.mixed = GetDetections 42%nat "d1" Examples.mixed /\
  GetDetectionsFromCamera "front" "none" Examples.mixed
    = GetDetections 42%nat "none" Examples.mixed.
Proof.
  split.
  - apply (GetDetectionsFromCamera_is_GetDetections_on_the_frame Examples.mixed
             "front" "d1" Examples.frontCamera 42%nat); reflexivity.
  - apply (GetDetectionsFromCamera_is_GetDetections_on_the_frame Examples.mixed
             "front" "none" Examples.frontCamera 42%nat); reflexivity.
Defined.

(** X2.  The same for classifications, for every bound. *)
Theorem GetClassificationsFromCamera_is_GetClassifications_on_the_frame
    (vs : visionService) (cameraName classifierName : string) (n : Z)
    (cam : Camera) (img : Image) :
  camera_FromRobot (r vs) cameraName = Ok cam ->
  ReadImage cam = Ok img ->
  GetClassificationsFromCamera cameraName classifierName n vs
    = GetClassifications img classifierName n vs.
Proof.
  intros Hcam Himg. unfold GetClassificationsFromCamera, GetClassifications. rewrite Hcam.
  destruct (modelLookup classifierName (modReg vs)) as [c | e]; [| reflexivity].
  destruct (toClassifier c) as [classifier | e]; [| reflexivity].
  by rewrite Himg.
Qed.

Lemma GetClassificationsFromCamera_is_GetClassifications_on_the_frame_witness :
  GetClassificationsFromCamera "front" "c1" 2 Examples.mixed
    = GetClassifications 42%nat "c1" 2 Examples.mixed.
Proof.
  apply (GetClassificationsFromCamera_is_GetClassifications_on_the_frame Examples.mixed
           "front" "c1" 2 Examples.frontCamera 42%nat); reflexivity.
Defined.

(** X3.  A camera that does not resolve is reported before anything about
    the model: the three operations that take a camera name return the
    camera's error whatever the registry holds and whatever model is named. *)
Theorem camera_failure_comes_first
    (vs : visionService) (cameraName modelName : string) (n : Z) (e : error) :
  camera_FromRobot (r vs) cameraName = Err e ->
  GetDetectionsFromCamera cameraName modelName vs = Err e /\
  GetClassificationsFromCamera cameraName modelName n vs = Err e /\
  GetObjectPointClouds cameraName modelName vs = Err e.
Proof.
  intros Hcam.
  unfold GetDetectionsFromCamera, GetClassificationsFromCamera, GetObjectPointClouds.
  by rewrite Hcam.
Qed.

Lemma camera_failure_comes_first_witness :
  GetDetectionsFromCamera "arm" "d1" Examples.mixed
    = Err (ErrUnimplementedInterface "camera.Camera" "*arm.reconfigurableArm") /\
  GetClassificationsFromCamera "arm" "d1" 1 Examples.mixed
    = Err (ErrUnimplementedInterface "camera.Camera" "*arm.reconfigurableArm") /\
  GetObjectPointClouds "arm" "d1" Examples.mixed
    = Err (ErrUnimplementedInterface "camera.Camera" "*arm.reconfigurableArm").
Proof.
  apply (camera_failure_comes_first Examples.mixed "arm" "d1" 1). reflexivity.
Defined.

(** X4.  A name that is not registered gives the same NotFound error,
    naming it, from every operation that runs a model; for the operations
    that take a camera this holds as soon as the camera resolves, before any
    frame is asked for. *)
Theorem missing_model_is_NotFound_everywhere
    (vs : visionService) (cameraName modelName : string) (img : Image) (n : Z)
    (cam : Camera) :
  modReg vs !! modelName = None ->
  camera_FromRobot (r vs) cameraName = Ok cam ->
  errorKind (ErrNoSuchModel modelName) = NotFound /\
  errorNames (ErrNoSuchModel modelName) = [modelName] /\
  GetDetections img modelName vs = Err (ErrNoSuchModel modelName) /\
  GetClassifications img modelName n vs = Err (ErrNoSuchModel modelName) /\
  GetDetectionsFromCamera cameraName modelName vs = Err (ErrNoSuchModel modelName) /\
  GetClassificationsFromCamera cameraName modelName n vs = Err (ErrNoSuchModel modelName) /\
  GetObjectPointClouds cameraName modelName vs = Err (ErrNoSuchModel modelName).
Proof.
  intros Hm Hcam.
  unfold GetDetections, GetClassifications, GetDetectionsFromCamera,
    GetClassificationsFromCamera, GetObjectPointClouds, modelLookup.
  rewrite Hcam, Hm. repeat split.
Qed.

Lemma missing_model_is_NotFound_everywhere_witness :
  GetDetections 42%nat "none" Examples.mixed = Err (ErrNoSuchModel "none") /\
  GetObjectPointClouds "front" "none" Examples.mixed = Err (ErrNoSuchModel "none").
Proof.
  destruct (missing_model_is_NotFound_everywhere Examples.mixed "front" "none" 42%nat 1
              Examples.frontCamera eq_refl eq_refl) as (_ & _ & H1 & _ & _ & _ & H2).
  split; [exact H1 | exact H2].
Defined.

(** X5.  A model of another kind is refused with a type mismatch: a
    model that is no detector gives no detections, one that is no classifier
    no classifications, one that is no segmenter no point clouds. *)
Theorem model_of_another_kind_is_refused
    (vs : visionService) (cameraName modelName : string) (img : Image) (n : Z)
    (cam : Camera) (m : registeredModel) :
  modReg vs !! modelName = Some m ->
  camera_FromRobot (r vs) cameraName = Ok cam ->
  (ModelKindOf m <> Detector ->
   exists e, errorKind e = TypeMismatch /\
             GetDetections img modelName vs = Err e /\
             GetDetectionsFromCamera cameraName modelName vs = Err e) /\
  (ModelKindOf m <> Classifier ->
   exists e, errorKind e = TypeMismatch /\
             GetClassifications img modelName n vs = Err e /\
             GetClassificationsFromCamera cameraName modelName n vs = Err e) /\
  (ModelKindOf m <> Segmenter ->
   exists e, errorKind e = TypeMismatch /\
             GetObjectPointClouds cameraName modelName vs = Err e).
Proof.
  intros Hm Hcam.
  unfold GetDetections, GetClassifications, GetDetectionsFromCamera,
    GetClassificationsFromCamera, GetObjectPointClouds, modelLookup,
    toDetector, toClassifier, toSegmenter, ModelKindOf.
  rewrite Hcam, Hm.
  destruct (Model m); simpl; (split; [| split]); intros H; try (by destruct H);
    (eexists; split; [| first [ split; reflexivity | reflexivity ] ]; reflexivity).
Qed.

Lemma model_of_another_kind_is_refused_witness :
  (exists e, errorKind e = TypeMismatch /\
             GetDetections 42%nat "c1" Examples.mixed = Err e /\
             GetDetectionsFromCamera "front" "c1" Examples.mixed = Err e) /\
  (exists e, errorKind e = TypeMismatch /\
             GetObjectPointClouds "front" "c1" Examples.mixed = Err e).
Proof.
  destruct (model_of_another_kind_is_refused Examples.mixed "front" "c1" 42%nat 1
              Examples.frontCamera (Examples.classifierModel "c1") eq_refl eq_refl)
    as (H1 & _ & H3).
  split; [apply H1 | apply H3]; discriminate.
Defined.

(** ** Adding and removing models *)

Lemma withModReg_same (vs : visionService) : withModReg vs (modReg vs) = vs.
Proof. by destruct vs. Qed.

Lemma registerNewVisModels_one_other (T : tables) (mm mm1 : modelMap)
    (cfg : VisModelConfig) (err : option error) (k : string) :
  registerNewVisModels T mm {| ModelRegistry := [cfg] |} = (err, mm1) ->
  k <> Name cfg -> mm1 !! k = mm !! k.
Proof.
  intros H Hk. destruct err as [e |].
  - by rewrite (registerNewVisModels_one_failed _ _ _ _ _ H).
  - apply registerNewVisModels_one_ok in H as (b & x & c & _ & _ & ->).
    by rewrite lookup_insert_ne by congruence.
Qed.

Lemma removeVisModel_other (name k : string) (mm mm1 : modelMap) (err : option error) :
  removeVisModel name mm = (err, mm1) -> k <> name -> mm1 !! k = mm !! k.
Proof.
  unfold removeVisModel. intros H Hk. destruct (mm !! name) as [m |].
  - destruct (Closer m) as [[e |] |]; injection H as _ <-; try reflexivity;
      by rewrite lookup_delete_ne by congruence.
  - by injection H as _ <-.
Qed.

Lemma removeVisModel_never_adds (name k : string) (mm mm1 : modelMap) (err : option error) :
  removeVisModel name mm = (err, mm1) -> mm1 !! k = None \/ mm1 !! k = mm !! k.
Proof.
  intros H. destruct (decide (k = name)) as [-> | Hk].
  - unfold removeVisModel in H. destruct (mm !! name) as [m |] eqn:Hm.
    + destruct (Closer m) as [[e |] |]; injection H as _ <-;
        first [ by right | left; apply lookup_delete_eq ].
    + injection H as _ <-. by right.
  - right. by apply (removeVisModel_other name k mm mm1 err).
Qed.

(** X6.  Whatever [AddDetector] returns, it leaves every model alone
    except the two names it is about: the name of the config and that name
    followed by "_segmenter".  The robot of the service stays the same. *)
Theorem AddDetector_touches_only_the_pair
    (T : tables) (cfg : VisModelConfig) (vs vs' : visionService) (err : option error) :
  AddDetector T cfg vs = (err, vs') ->
  r vs' = r vs /\
  forall k,
    k <> Name cfg -> k <> Name cfg +:+ "_segmenter" ->
    modReg vs' !! k = modReg vs !! k.
Proof.
  unfold AddDetector. intros H.
  destruct (registerNewVisModels T (modReg vs) {| ModelRegistry := [cfg] |})
    as [[e |] mm1] eqn:H1.
  - injection H as _ <-. split; [reflexivity |]. intros k Hk _. simpl.
    by apply (registerNewVisModels_one_other T _ _ cfg (Some e)).
  - fold (segmenterConfOf T cfg) in H. unfold AddSegmenter in H.
    destruct (registerNewVisModels T (modReg (withModReg vs mm1))
                {| ModelRegistry := [segmenterConfOf T cfg] |}) as [e2 mm2] eqn:H2.
    injection H as _ <-. split; [reflexivity |]. intros k Hk1 Hk2. simpl in *.
    rewrite (registerNewVisModels_one_other T _ _ _ e2 k H2) by exact Hk2.
    by apply (registerNewVisModels_one_other T _ _ cfg None).
Qed.

(** X7.  When the detector itself cannot be registered, because its
    type-tag has no factory or because the factory fails, [AddDetector]
    returns that failure, derives no segmenter and leaves the service as it
    was. *)
Theorem AddDetector_registers_nothing_when_the_detector_fails
    (T : tables) (cfg : VisModelConfig) (vs : visionService) :
  (modelFactories T !! Type_ cfg = None ->
   AddDetector T cfg vs = (Some (ErrModelTypeNotImplemented (Type_ cfg)), vs) /\
   errorKind (ErrModelTypeNotImplemented (Type_ cfg)) = ValidationFailure) /\
  (forall build e,
      modelFactories T !! Type_ cfg = Some build ->
      build (modReg vs) cfg = Err e ->
      AddDetector T cfg vs = (Some e, vs)).
Proof.
  split.
  - intros Hf. unfold AddDetector. rewrite registerNewVisModels_one.
    unfold factory in *. rewrite Hf. by rewrite withModReg_same.
  - intros build e Hf Hb. unfold AddDetector. rewrite registerNewVisModels_one.
    unfold factory in *. rewrite Hf, Hb. by rewrite withModReg_same.
Qed.

Lemma AddDetector_registers_nothing_when_the_detector_fails_witness :
  AddDetector Examples.T0 {| Name := "d9"; Type_ := "yolo"; Parameters := [] |}
    Examples.mixed
    = (Some (ErrModelTypeNotImplemented "yolo"), Examples.mixed) /\
  AddDetector Examples.T0
    {| Name := "s9"; Type_ := "detector_segmenter"; Parameters := [] |} Examples.mixed
    = (Some (ErrUpstream "detector_name is missing"), Examples.mixed).
Proof.
  split.
  - apply (proj1 (AddDetector_registers_nothing_when_the_detector_fails Examples.T0
                    {| Name := "d9"; Type_ := "yolo"; Parameters := [] |} Examples.mixed)).
    reflexivity.
  - apply (proj2 (AddDetector_registers_nothing_when_the_detector_fails Examples.T0
                    {| Name := "s9"; Type_ := "detector_segmenter"; Parameters := [] |}
                    Examples.mixed) Examples.detectorSegmenter); reflexivity.
Defined.

Lemma AddDetector_touches_only_the_pair_witness :
  modReg (snd (AddDetector Examples.T0 Examples.d1Config Examples.classifierAndSegmenter))
    !! "c_segmenter"
  = modReg Examples.classifierAndSegmenter !! "c_segmenter".
Proof.
  apply (AddDetector_touches_only_the_pair Examples.T0 Examples.d1Config
           Examples.classifierAndSegmenter
           (snd (AddDetector Examples.T0 Examples.d1Config Examples.classifierAndSegmenter))
           None eq_refl); discriminate.
Defined.

(** X8.  Whatever [RemoveDetector] returns, it adds nothing and leaves
    every model alone except the detector and the segmenter of the derived
    name; and when the detector itself cannot be removed it returns that
    failure and changes nothing, so the segmenter stays. *)
Theorem RemoveDetector_touches_only_the_pair
    (detectorName : string) (vs vs' : visionService) (err : option error) :
  RemoveDetector detectorName vs = (err, vs') ->
  r vs' = r vs /\
  (forall k, modReg vs' !! k = None \/ modReg vs' !! k = modReg vs !! k) /\
  (forall k,
      k <> detectorName -> k <> detectorName +:+ "_segmenter" ->
      modReg vs' !! k = modReg vs !! k) /\
  (forall e,
      fst (removeVisModel detectorName (modReg vs)) = Some e ->
      err = Some e /\ vs' = vs).
Proof.
  unfold RemoveDetector, RemoveSegmenter. intros H.
  destruct (removeVisModel detectorName (modReg vs)) as [[e |] mm1] eqn:H1.
  - injection H as <- <-. split; [reflexivity |]. simpl.
    split; [| split].
    + intros k. by apply (removeVisModel_never_adds detectorName k _ _ (Some e)).
    + intros k Hk _. by apply (removeVisModel_other detectorName k _ _ (Some e)).
    + intros e' [= <-]. split; [reflexivity |].
      assert (Hf : fst (removeVisModel detectorName (modReg vs)) = Some e) by by rewrite H1.
      apply removeVisModel_failed in Hf. rewrite H1 in Hf. injection Hf as ->.
      apply withModReg_same.
  - simpl in H.
    destruct (removeVisModel (detectorName +:+ "_segmenter") mm1) as [e2 mm2] eqn:H2.
    injection H as <- <-. split; [reflexivity |]. simpl. split; [| split].
    + intros k.
      destruct (removeVisModel_never_adds _ k _ _ _ H2) as [Hn | He]; [by left |].
      rewrite He. by apply (removeVisModel_never_adds detectorName k _ _ None).
    + intros k Hk1 Hk2. rewrite (removeVisModel_other _ k _ _ _ H2 Hk2).
      by apply (removeVisModel_other detectorName k _ _ None).
    + intros e [=].
Qed.

Lemma RemoveDetector_touches_only_the_pair_witness :
  fst (RemoveDetector "c1" Examples.oneStuck) = Some (ErrUpstream "engine busy") /\
  snd (RemoveDetector "c1" Examples.oneStuck) = Examples.oneStuck.
Proof.
  destruct (RemoveDetector_touches_only_the_pair "c1" Examples.oneStuck
              (snd (RemoveDetector "c1" Examples.oneStuck))
              (fst (RemoveDetector "c1" Examples.oneStuck)) eq_refl)
    as (_ & _ & _ & H).
  apply (H (ErrUpstream "engine busy")). reflexivity.
Defined.

(** X9.  Adding a detector and removing it again is a round trip: when
    neither of the two names was registered, [AddDetector] succeeded and
    the two models it registered can be released, [RemoveDetector] succeeds
    and the service is what it was before. *)
Theorem AddDetector_then_RemoveDetector_restores
    (T : tables) (cfg : VisModelConfig) (vs vs1 : visionService) :
  modReg vs !! Name cfg = None ->
  modReg vs !! (Name cfg +:+ "_segmenter") = None ->
  AddDetector T cfg vs = (None, vs1) ->
  (forall name m err, modReg vs1 !! name = Some m -> Closer m <> Some (Some err)) ->
  RemoveDetector (Name cfg) vs1 = (None, vs).
Proof.
  intros Hd Hs Hadd Hclosers. unfold AddDetector in Hadd.
  destruct (registerNewVisModels T (modReg vs) {| ModelRegistry := [cfg] |})
    as [[e |] mm1] eqn:H1; [discriminate |].
  fold (segmenterConfOf T cfg) in Hadd. unfold AddSegmenter in Hadd.
  destruct (registerNewVisModels T (modReg (withModReg vs mm1))
              {| ModelRegistry := [segmenterConfOf T cfg] |}) as [e2 mm2] eqn:H2.
  injection Hadd as -> <-. simpl in *.
  apply registerNewVisModels_one_ok in H1 as (b1 & x1 & c1 & _ & _ & ->).
  apply registerNewVisModels_one_ok in H2 as (b2 & x2 & c2 & _ & _ & ->).
  simpl in *.
  set (md := {| ModelName := Name cfg; ModelParameters := Parameters cfg;
                Model := x1; Closer := c1 |}) in *.
  set (ms := {| ModelName := Name cfg +:+ "_segmenter";
                ModelParameters := [("detector_name", AttrString (Name cfg));
                                    ("mean_k", AttrInt 0); ("sigma", AttrFloat 0)];
                Model := x2; Closer := c2 |}) in *.
  assert (Hne : Name cfg <> Name cfg +:+ "_segmenter") by apply segmenter_name_differs.
  unfold RemoveDetector, RemoveSegmenter. simpl.
  rewrite (removeVisModel_present (Name cfg) _ md).
  - simpl. rewrite (removeVisModel_present (Name cfg +:+ "_segmenter") _ ms).
    + f_equal. destruct vs as [rb mm]. unfold withModReg. simpl in *. f_equal.
      apply map_eq. intros k.
      destruct (decide (k = Name cfg +:+ "_segmenter")) as [-> | Hk2];
        [by rewrite lookup_delete_eq |].
      rewrite lookup_delete_ne by congruence.
      destruct (decide (k = Name cfg)) as [-> | Hk1]; [by rewrite lookup_delete_eq |].
      rewrite lookup_delete_ne by congruence.
      by rewrite !lookup_insert_ne by congruence.
    + rewrite lookup_delete_ne by congruence. apply lookup_insert_eq.
    + intros err. apply (Hclosers (Name cfg +:+ "_segmenter")). apply lookup_insert_eq.
  - rewrite lookup_insert_ne by congruence. apply lookup_insert_eq.
  - intros err. apply (Hclosers (Name cfg)).
    rewrite lookup_insert_ne by congruence. apply lookup_insert_eq.
Qed.

Lemma mixed_with_d2_releasable (name : string) (m : registeredModel) (err : error) :
  modReg (snd (AddDetector Examples.T0
                 {| Name := "d2"; Type_ := "color_detector"; Parameters := [] |}
                 Examples.mixed)) !! name = Some m ->
  Closer m <> Some (Some err).
Proof.
  intros H Hc.
  assert (Hin : name ∈ ["s1"; "c1"; "d1"; "d2_segmenter"; "d2"]).
  { change ["s1"; "c1"; "d1"; "d2_segmenter"; "d2"]
      with (modelNames (modReg (snd (AddDetector Examples.T0
              {| Name := "d2"; Type_ := "color_detector"; Parameters := [] |}
              Examples.mixed)))).
    apply elem_of_modelNames. eauto. }
  repeat (apply elem_of_cons in Hin as [-> | Hin];
          [vm_compute in H; injection H as <-; discriminate Hc |]).
  by apply elem_of_nil in Hin.
Qed.

Lemma AddDetector_then_RemoveDetector_restores_witness :
  RemoveDetector "d2"
    (snd (AddDetector Examples.T0
            {| Name := "d2"; Type_ := "color_detector"; Parameters := [] |} Examples.mixed))
  = (None, Examples.mixed).
Proof.
  apply (AddDetector_then_RemoveDetector_restores Examples.T0
           {| Name := "d2"; Type_ := "color_detector"; Parameters := [] |} Examples.mixed).
  - reflexivity.
  - reflexivity.
  - reflexivity.
  - exact mixed_with_d2_releasable.
Defined.

(** X10.  [AddClassifier] does what [AddSegmenter] does: neither looks at
    the kind of the config.  What is registered is what the factory of the
    type-tag builds, under the name of the config and nothing else, so the
    name shows among the classifiers exactly when the factory built a
    classifier. *)
Theorem AddClassifier_registers_what_the_factory_builds
    (T : tables) (cfg : VisModelConfig) (vs : visionService) :
  AddClassifier T cfg vs = AddSegmenter T cfg vs /\
  (forall build x closer,
      modelFactories T !! Type_ cfg = Some build ->
      build (modReg vs) cfg = Ok (x, closer) ->
      exists vs',
        AddClassifier T cfg vs = (None, vs') /\
        modReg vs' = <[Name cfg := {| ModelName := Name cfg;
                                      ModelParameters := Parameters cfg;
                                      Model := x;
                                      Closer := closer |}]> (modReg vs) /\
        (Name cfg ∈ ClassifierNames (modReg vs') <-> kindOf x = Classifier)).
Proof.
  split.
  - unfold AddClassifier, AddSegmenter.
    by destruct (registerNewVisModels T (modReg vs) {| ModelRegistry := [cfg] |}) as [[e |] mm].
  - intros build x closer Hf Hb. unfold AddClassifier. rewrite registerNewVisModels_one.
    unfold factory in *. rewrite Hf, Hb. eexists. split; [reflexivity |].
    split; [reflexivity |]. simpl.
    unfold ClassifierNames. rewrite elem_of_namesOfKind. rewrite lookup_insert_eq. split.
    + by intros (m & [= <-] & Hk).
    + intros Hk. eexists. split; [reflexivity | exact Hk].
Qed.

(** A detector config handed to [AddClassifier] is registered as a
    detector, without a segmenter. *)
Lemma AddClassifier_registers_what_the_factory_builds_witness :
  exists vs',
    AddClassifier Examples.T0 Examples.d1Config Examples.emptyService = (None, vs') /\
    modReg vs' = <["d1" := {| ModelName := "d1"; ModelParameters := [];
                              Model := DetectorFn (fun _ => Ok [1%nat; 2%nat]);
                              Closer := None |}]> ∅ /\
    ("d1" ∈ ClassifierNames (modReg vs') <->
     kindOf (DetectorFn (fun _ => Ok [1%nat; 2%nat])) = Classifier).
Proof.
  apply (proj2 (AddClassifier_registers_what_the_factory_builds Examples.T0
                  Examples.d1Config Examples.emptyService) Examples.colorDetector);
    reflexivity.
Defined.

(** X11.  [RemoveClassifier] does what [RemoveSegmenter] does, for a
    model of any kind: a registered model whose release does not fail is
    removed and nothing else is, so removing a detector this way leaves the
    segmenter derived from it. *)
Theorem RemoveClassifier_removes_any_kind
    (name : string) (vs : visionService) (m : registeredModel) :
  modReg vs !! name = Some m ->
  (forall err, Closer m <> Some (Some err)) ->
  RemoveClassifier name vs = RemoveSegmenter name vs /\
  RemoveClassifier name vs = (None, withModReg vs (delete name (modReg vs))) /\
  (forall k, k <> name ->
             modReg (snd (RemoveClassifier name vs)) !! k = modReg vs !! k) /\
  (name ∉ DetectorNames (modReg (snd (RemoveClassifier name vs)))) /\
  (name ∉ ClassifierNames (modReg (snd (RemoveClassifier name vs)))) /\
  (name ∉ SegmenterNames (modReg (snd (RemoveClassifier name vs)))).
Proof.
  intros Hm Hc. unfold RemoveClassifier, RemoveSegmenter.
  rewrite (removeVisModel_present _ _ _ Hm Hc). simpl.
  split; [reflexivity |]. split; [reflexivity |]. split.
  - intros k Hk. by rewrite lookup_delete_ne by congruence.
  - unfold DetectorNames, ClassifierNames, SegmenterNames.
    rewrite !elem_of_namesOfKind, lookup_delete_eq.
    repeat split; by intros (m' & [=] & _).
Qed.

Lemma RemoveClassifier_removes_any_kind_witness :
  RemoveClassifier "d1" MoreExamples.detectorPair
    = (None, withModReg MoreExamples.detectorPair
               (delete "d1" (modReg MoreExamples.detectorPair))) /\
  modReg (snd (RemoveClassifier "d1" MoreExamples.detectorPair)) !! "d1_segmenter"
    = modReg MoreExamples.detectorPair !! "d1_segmenter".
Proof.
  destruct (RemoveClassifier_removes_any_kind "d1" MoreExamples.detectorPair
              (Examples.detectorModel "d1") eq_refl) as (_ & H1 & H2 & _).
  - intros err. discriminate.
  - split; [exact H1 |]. apply H2. discriminate.
Defined.

(** A run of X12: the detector "d1" with its segmenter, next to a
    classifier. *)
Lemma RemoveDetector_cascade_witness :
  exists vs',
    RemoveDetector "d1" MoreExamples.detectorPair = (None, vs') /\
    ("d1" ∉ DetectorNames (modReg vs')) /\
    ("d1_segmenter" ∉ SegmenterNames (modReg vs')) /\
    (forall k, k <> "d1" -> k <> "d1_segmenter" ->
               modReg vs' !! k = modReg MoreExamples.detectorPair !! k).
Proof.
  apply (RemoveDetector_cascade "d1" MoreExamples.detectorPair
           (Examples.detectorModel "d1") (Examples.segmenterModel "d1_segmenter")).
  - reflexivity.
  - intros err. discriminate.
  - reflexivity.
  - intros err. discriminate.
Defined.

(** ** Construction *)

Lemma registerConfigs_names (T : tables) (cfgs : list VisModelConfig) :
  forall mm mm' : modelMap,
    registerConfigs T mm cfgs = (None, mm') ->
    forall name, is_Some (mm' !! name) <-> is_Some (mm !! name) \/ name ∈ Name <$> cfgs.
Proof.
  induction cfgs as [| cfg rest IH]; intros mm mm' H name.
  - injection H as <-. split; [by left |]. intros [H | H]; [exact H |].
    by apply elem_of_nil in H.
  - cbn [registerConfigs] in H.
    destruct (modelFactories T !! Type_ cfg) as [build |]; [| discriminate].
    destruct (build mm cfg) as [[x closer] | e]; [| discriminate].
    rewrite (IH _ _ H name). rewrite fmap_cons, elem_of_cons.
    destruct (decide (name = Name cfg)) as [-> | Hne].
    + rewrite lookup_insert_eq. split; [intros _; right; by left |]. intros _. left. eauto.
    + rewrite lookup_insert_ne by congruence. split.
      * intros [H1 | H1]; [by left | right; by right].
      * intros [H1 | [H1 | H1]]; [by left | by destruct Hne | by right].
Qed.

(** X13.  A service that [New] returns holds exactly the configured
    models: none without attributes, and otherwise the names of the configs
    and no other, so no segmenter is derived at construction.  Attributes of
    another Go type never give a service. *)
Theorem New_registers_exactly_the_configured_models
    (T : tables) (rb : robot cameraResource) (config : config_Service) (vs : visionService) :
  New T rb config = Ok vs ->
  r vs = rb /\
  match ConvertedAttributes config with
  | NoAttributes => modReg vs = ∅
  | VisionAttributes attrs =>
      forall name, is_Some (modReg vs !! name) <-> name ∈ Name <$> ModelRegistry attrs
  | OtherAttributes _ => False
  end.
Proof.
  unfold New. destruct (ConvertedAttributes config) as [| attrs | goType].
  - intros [= <-]. by split.
  - unfold registerNewVisModels.
    destruct (registerConfigs T ∅ (ModelRegistry attrs)) as [[e |] mm] eqn:H; [discriminate |].
    intros [= <-]. split; [reflexivity |]. intros name. simpl.
    rewrite (registerConfigs_names T _ _ _ H name). rewrite lookup_empty. split.
    + intros [[m Hm] | H1]; [discriminate | exact H1].
    + by right.
  - discriminate.
Qed.

Lemma New_registers_exactly_the_configured_models_witness :
  is_Some (match New Examples.T0 Examples.robot0 MoreExamples.twoModels with
           | Ok vs => modReg vs !! "d1_segmenter"
           | Err _ => None
           end)
  <-> "d1_segmenter" ∈ ["d1"; "c1"].
Proof.
  destruct (New Examples.T0 Examples.robot0 MoreExamples.twoModels) as [vs | e] eqn:H.
  - apply (proj2 (New_registers_exactly_the_configured_models Examples.T0 Examples.robot0
                    MoreExamples.twoModels vs H)).
  - discriminate H.
Defined.

(** ** The first service of a robot *)

(** X14.  On a robot without a vision service [FirstFromRobot] asks for
    the empty name, and fails with NotFound for it when the robot resolves
    no such resource; on a robot with several it resolves the one that is
    listed first and no other. *)
Theorem FirstFromRobot_resolves_the_first_name (rb : namedRobot) :
  (NamesBySubtype rb Subtype = [] ->
   FirstFromRobot rb = FromRobot (resources rb) "" /\
   forall e,
     ResourceByName (resources rb) (Named "") = Err e ->
     FirstFromRobot rb = Err (ErrResourceNotFound (Named ""))) /\
  (forall name rest,
      NamesBySubtype rb Subtype = name :: rest ->
      FirstFromRobot rb = FromRobot (resources rb) name).
Proof.
  unfold FirstFromRobot, FindFirstName. split.
  - intros ->. split; [reflexivity |]. intros e He. unfold FromRobot. by rewrite He.
  - by intros name rest ->.
Qed.

Lemma FirstFromRobot_resolves_the_first_name_witness :
  FirstFromRobot MoreExamples.bareRobot = Err (ErrResourceNotFound (Named "")) /\
  FirstFromRobot MoreExamples.twoVisionRobot = FromRobot Examples.robot1 "vision2".
Proof.
  split.
  - apply (proj2 (proj1 (FirstFromRobot_resolves_the_first_name MoreExamples.bareRobot)
                    eq_refl)
             (ErrResourceNotFound (Named ""))).
    reflexivity.
  - apply (proj2 (FirstFromRobot_resolves_the_first_name MoreExamples.twoVisionRobot)
             "vision2" ["vision1"]).
    reflexivity.
Defined.

(** ** The shim *)

(** X16.  Whatever [FromRobot] resolves can be wrapped: the wrap
    succeeds, and a resource that is a shim already comes back as it is with
    the heap unchanged. *)
Theorem FromRobot_result_can_be_wrapped
    (rb : robot value) (name : string) (v : value) (w : world) :
  FromRobot rb name = Ok v ->
  exists p w',
    WrapWithReconfigurable v w = (Ok (RVision p), w') /\
    (forall q, v = VReconfigurableVision q -> p = q /\ w' = w).
Proof.
  unfold FromRobot. destruct (ResourceByName rb (Named name)) as [resource | e]; [| discriminate].
  destruct (satisfiesService resource) eqn:Hs; [| discriminate].
  intros [= <-]. destruct resource as [| q | svc | goType]; try discriminate Hs.
  - exists q, w. split; [reflexivity |]. by intros q' [= <-].
  - eexists _, _. split; [reflexivity |]. intros q Hq. discriminate Hq.
Qed.

Lemma FromRobot_result_can_be_wrapped_witness :
  exists p w',
    WrapWithReconfigurable (VReconfigurableVision 0) Examples.world0 = (Ok (RVision p), w') /\
    (forall q, VReconfigurableVision 0 = VReconfigurableVision q ->
               p = q /\ w' = Examples.world0).
Proof.
  apply (FromRobot_result_can_be_wrapped Examples.robot1 "vision1"). reflexivity.
Defined.

(** X17.  Closing a shim that is bound to a vision service tears that
    service down: when every registered model can be removed, [Close] on
    the shim returns success, and the shim then lists no detector, no
    classifier and no segmenter. *)
Theorem reconfigurableVision_Close_tears_the_service_down
    (T : tables) (vs : visionService) :
  (forall name,
      name ∈ modelNames (modReg vs) -> fst (removeVisModel name (modReg vs)) = None) ->
  exists svc',
    reconfigurableVision_Close {| actual := asService T vs |} = (None, svc') /\
    fst (reconfigurableVision_GetDetectorNames svc') = Ok [] /\
    fst (reconfigurableVision_GetClassifierNames svc') = Ok [] /\
    fst (reconfigurableVision_GetSegmenterNames svc') = Ok [].
Proof.
  intros Hall.
  destruct (closeLoop_succeeds _ (modReg vs) (NoDup_modelNames _) Hall) as (mm' & Hloop & Hmm').
  assert (Hclose : Close vs = (None, withModReg vs mm')) by (unfold Close; by rewrite Hloop).
  exists {| actual := asService T (withModReg vs mm') |}.
  assert (Hempty : DetectorNames mm' = [] /\ ClassifierNames mm' = [] /\ SegmenterNames mm' = []).
  { apply names_of_empty. intros k. rewrite Hmm'. case_decide as Hk; [reflexivity |].
    rewrite elem_of_modelNames in Hk. by apply eq_None_not_Some. }
  destruct Hempty as (Hd & Hc & Hs). split.
  - unfold reconfigurableVision_Close, Service.TryClose. simpl. by rewrite Hclose.
  - unfold reconfigurableVision_GetDetectorNames, reconfigurableVision_GetClassifierNames,
      reconfigurableVision_GetSegmenterNames, Service.call. simpl.
    unfold GetDetectorNames, GetClassifierNames, GetSegmenterNames. simpl.
    by rewrite Hd, Hc, Hs.
Qed.

Lemma reconfigurableVision_Close_tears_the_service_down_witness :
  exists svc',
    reconfigurableVision_Close {| actual := asService Examples.T0 Examples.mixed |}
      = (None, svc') /\
    fst (reconfigurableVision_GetDetectorNames svc') = Ok [] /\
    fst (reconfigurableVision_GetClassifierNames svc') = Ok [] /\
    fst (reconfigurableVision_GetSegmenterNames svc') = Ok [].
Proof.
  apply (reconfigurableVision_Close_tears_the_service_down Examples.T0 Examples.mixed).
  exact mixed_all_removable.
Defined.

(** * The transform pipeline *)

Module TransformPipelineProofs.
Import TransformPipeline.

Section Pipeline.

Context {ImageSource Transformation Robot Projector AttrConfig Cam : Type}.
Variable buildTransform :
  Robot -> ImageSource -> transformConfig Transformation AttrConfig -> Transformation ->
  result ImageSource.
Variable GetProjector : option AttrConfig -> Projector.
Variable camera_New : ImageSource -> Projector -> result Cam.

Lemma buildAll_app (rb : Robot) (cfg : transformConfig Transformation AttrConfig)
    (p1 p2 : list Transformation) :
  forall src : ImageSource,
    buildAll buildTransform rb cfg src (p1 ++ p2) =
    match buildAll buildTransform rb cfg src p1 with
    | Err e => Err e
    | Ok mid => buildAll buildTransform rb cfg mid p2
    end.
Proof.
  induction p1 as [| tr p1 IH]; intros src; simpl; [reflexivity |].
  destruct (buildTransform rb src cfg tr) as [src' | e]; [apply IH | reflexivity].
Qed.

(** X18.  Building a pipeline is building its first part and then the
    rest on what the first part gave; a failure in the first part is the
    failure of the whole, whatever the rest is. *)
Theorem buildAll_composes (rb : Robot) (cfg : transformConfig Transformation AttrConfig)
    (p1 p2 : list Transformation) (src : ImageSource) :
  (forall mid,
      buildAll buildTransform rb cfg src p1 = Ok mid ->
      buildAll buildTransform rb cfg src (p1 ++ p2) = buildAll buildTransform rb cfg mid p2) /\
  (forall e,
      buildAll buildTransform rb cfg src p1 = Err e ->
      buildAll buildTransform rb cfg src (p1 ++ p2) = Err e).
Proof.
  split; intros x H; by rewrite buildAll_app, H.
Qed.

(** X19.  A camera comes out of [newTransformPipeline] only from a
    source that is not nil and a pipeline that is not empty, and then it is
    the camera made from the output of the last transform, with every
    transform built. *)
Theorem newTransformPipeline_needs_source_and_transforms
    (source : option ImageSource) (cfg : transformConfig Transformation AttrConfig)
    (rb : Robot) (cam : Cam) :
  newTransformPipeline buildTransform GetProjector camera_New source cfg rb = inr cam ->
  exists src outSource,
    source = Some src /\
    Pipeline cfg <> [] /\
    buildAll buildTransform rb cfg src (Pipeline cfg) = Ok outSource /\
    camera_New outSource (GetProjector (AttrConfig_ cfg)) = Ok cam.
Proof.
  unfold newTransformPipeline. destruct source as [src |]; [| discriminate].
  destruct (Pipeline cfg) as [| tr rest] eqn:Hp; [discriminate |]. simpl length.
  change (Nat.eqb (S (length rest)) 0) with false. cbv iota.
  destruct (buildAll buildTransform rb cfg src (tr :: rest)) as [outSource | e] eqn:Hb;
    [| discriminate].
  destruct (camera_New outSource (GetProjector (AttrConfig_ cfg))) as [c | e] eqn:Hc;
    [| discriminate].
  intros [= <-]. exists src, outSource.
  split; [reflexivity |]. split; [discriminate |]. split; [exact Hb | exact Hc].
Qed.


End Pipeline.

Lemma buildAll_composes_witness :
  buildAll MoreExamples.buildTransform tt (MoreExamples.pipelineOf ["rotate"; "resize"])
    ["front"] (["rotate"] ++ ["resize"])
  = buildAll MoreExamples.buildTransform tt (MoreExamples.pipelineOf ["rotate"; "resize"])
      ["front"; "rotate"] ["resize"] /\
  buildAll MoreExamples.buildTransform tt (MoreExamples.pipelineOf ["undistort"; "resize"])
    ["front"] (["undistort"] ++ ["resize"])
  = Err (ErrUpstream "no intrinsics").
Proof.
  split.
  - apply (proj1 (buildAll_composes MoreExamples.buildTransform tt
                    (MoreExamples.pipelineOf ["rotate"; "resize"])
                    ["rotate"] ["resize"] ["front"])).
    reflexivity.
  - apply (proj2 (buildAll_composes MoreExamples.buildTransform tt
                    (MoreExamples.pipelineOf ["undistort"; "resize"])
                    ["undistort"] ["resize"] ["front"])).
    reflexivity.
Defined.

Lemma newTransformPipeline_needs_source_and_transforms_witness :
  exists src outSource,
    Some ["front"] = Some src /\
    Pipeline (MoreExamples.pipelineOf ["rotate"; "resize"]) <> [] /\
    buildAll MoreExamples.buildTransform tt (MoreExamples.pipelineOf ["rotate"; "resize"])
      src ["rotate"; "resize"] = Ok outSource /\
    MoreExamples.camera_New outSource tt = Ok ["front"; "rotate"; "resize"].
Proof.
  apply (newTransformPipeline_needs_source_and_transforms
           MoreExamples.buildTransform MoreExamples.GetProjector MoreExamples.camera_New
           (Some ["front"]) (MoreExamples.pipelineOf ["rotate"; "resize"]) tt).
  reflexivity.
Defined.


End TransformPipelineProofs.

(** * Locking: closing and completion *)

Module LockingMoreProofs.
Import Locking LockingMore.

Section Interleavings.

Context {A : Type}.
Variables old new : A.

Lemma run_app (s1 s2 : list event) (s : state A) :
  run new (s1 ++ s2) s = run new s2 (run new s1 s).
Proof. unfold run. apply foldl_app. Qed.

Lemma readerAdvance_writer (i : nat) (s : state A) :
  wpc (readerAdvance i s) = wpc s /\ closed (readerAdvance i s) = closed s.
Proof.
  unfold readerAdvance. destruct (readers s !! i) as [rd |]; [| by split].
  destruct (rpc rd); try by split.
  - by destruct (RLock (mu s)).
  - by destruct (RUnlock (mu s)).
Qed.

Lemma readerWork_writer (i : nat) (s : state A) :
  wpc (readerWork i s) = wpc s /\ closed (readerWork i s) = closed s.
Proof.
  unfold readerWork. destruct (readers s !! i) as [rd |]; [| by split].
  by destruct (rpc rd).
Qed.

Lemma closedInv_step (e : event) (s : state A) :
  Inv old new s -> closedInv old s -> closedInv old (step new e s).
Proof.
  intros HI Hcl. unfold closedInv in *. destruct e as [i | i |]; simpl.
  - destruct (readerAdvance_writer i s) as [-> ->]. exact Hcl.
  - destruct (readerWork_writer i s) as [-> ->]. exact Hcl.
  - destruct HI as [_ _ _ Ha _]. unfold writerAdvance.
    destruct (wpc s) eqn:Hpc; simpl in *.
    + by destruct (Lock (mu s)); simpl; rewrite ?Hpc.
    + by rewrite Ha, Hcl.
    + exact Hcl.
    + by destruct (Unlock (mu s)); simpl; rewrite ?Hpc.
    + by rewrite Hpc.
Qed.

Lemma Inv_step (e : event) (s : state A) : Inv old new s -> Inv old new (step new e s).
Proof.
  destruct e; simpl.
  - apply LockingProofs.Inv_readerAdvance.
  - apply LockingProofs.Inv_readerWork.
  - apply LockingProofs.Inv_writerAdvance.
Qed.

Lemma closedInv_run (schedule : list event) :
  forall s, Inv old new s -> closedInv old s -> closedInv old (run new schedule s).
Proof.
  induction schedule as [| e schedule IH]; intros s HI Hcl; [exact Hcl |].
  simpl. apply IH; [by apply Inv_step | by apply closedInv_step].
Qed.

(** *** Running to completion *)

Lemma inside_positive (rs : list (reader A)) (i : nat) (rd : reader A) :
  rs !! i = Some rd -> readerInside rd = true -> 0 < inside rs.
Proof.
  revert i. induction rs as [| x rest IH]; intros [| i] H Hin; simpl in *; try discriminate.
  - injection H as ->. rewrite Hin. lia.
  - specialize (IH i H Hin). lia.
Qed.

Lemma inside_all_done (rs : list (reader A)) :
  Forall (fun rd => rpc rd = RDone) rs -> inside rs = 0.
Proof.
  induction 1 as [| rd rest Hrd _ IH]; simpl; [reflexivity |].
  unfold readerInside. by rewrite Hrd, IH.
Qed.

(** A reader that is scheduled while [Reconfigure] does not hold the lock
    comes one step closer to its end, and no other thread changes. *)
Lemma readerAdvance_progress (i : nat) (s : state A) (rd : reader A) :
  Inv old new s ->
  writerInside (wpc s) = false ->
  readers s !! i = Some rd ->
  exists rd',
    readers (readerAdvance i s) !! i = Some rd' /\
    readerRank (rpc rd') = pred (readerRank (rpc rd)) /\
    (forall j, j <> i -> readers (readerAdvance i s) !! j = readers s !! j).
Proof.
  intros [Hc Hw He Ha Hr] Hout Hi.
  assert (Hlt : i < length (readers s)) by (by eapply lookup_lt_Some).
  unfold readerAdvance. rewrite Hi. destruct (rpc rd) eqn:Hpc.
  - unfold RLock. rewrite Hw, Hout. eexists. simpl.
    split; [by apply list_lookup_insert_eq |]. split; [reflexivity |].
    intros j Hj. by apply list_lookup_insert_ne.
  - eexists. simpl. split; [by apply list_lookup_insert_eq |]. split; [reflexivity |].
    intros j Hj. by apply list_lookup_insert_ne.
  - eexists. simpl. split; [by apply list_lookup_insert_eq |]. split; [reflexivity |].
    intros j Hj. by apply list_lookup_insert_ne.
  - unfold RUnlock.
    assert (Hpos : 0 < inside (readers s)).
    { apply (inside_positive _ i rd Hi). unfold readerInside. by rewrite Hpc. }
    rewrite <- Hc in Hpos. destruct (readerCount (mu s)) as [| k]; [lia |].
    eexists. simpl. split; [by apply list_lookup_insert_eq |]. split; [reflexivity |].
    intros j Hj. by apply list_lookup_insert_ne.
  - exists rd. split; [exact Hi |]. split; [by rewrite Hpc | reflexivity].
Qed.

Lemma reader_steps (k : nat) (i : nat) :
  forall (s : state A) (rd : reader A),
    Inv old new s ->
    writerInside (wpc s) = false ->
    readers s !! i = Some rd ->
    let s' := run new (replicate k (ReaderAdvance i)) s in
    Inv old new s' /\
    wpc s' = wpc s /\
    (exists rd', readers s' !! i = Some rd' /\
                 readerRank (rpc rd') = readerRank (rpc rd) - k) /\
    (forall j, j <> i -> readers s' !! j = readers s !! j).
Proof.
  induction k as [| k IH]; intros s rd HI Hout Hi; simpl.
  - split; [exact HI |]. split; [reflexivity |]. split; [| reflexivity].
    exists rd. split; [exact Hi | lia].
  - destruct (readerAdvance_progress i s rd HI Hout Hi) as (rd1 & Hi1 & Hrank & Hothers).
    destruct (readerAdvance_writer i s) as [Hwpc _].
    destruct (IH (readerAdvance i s) rd1) as (HI' & Hwpc' & (rd' & Hi' & Hrank') & Hothers').
    + by apply LockingProofs.Inv_readerAdvance.
    + by rewrite Hwpc.
    + exact Hi1.
    + split; [exact HI' |]. split; [by rewrite Hwpc' |]. split.
      * exists rd'. split; [exact Hi' |]. rewrite Hrank', Hrank. lia.
      * intros j Hj. rewrite (Hothers' j Hj). by apply Hothers.
Qed.

Lemma rank_zero_done (p : readerPc) : readerRank p = 0 -> p = RDone.
Proof. by destruct p. Qed.

Lemma readerRank_bound (p : readerPc) : readerRank p <= 4.
Proof. destruct p; simpl; lia. Qed.

Lemma finishReaders_succ (k : nat) :
  finishReaders (S k) = finishReaders k ++ replicate 4 (ReaderAdvance k).
Proof.
  unfold finishReaders. by rewrite seq_S, flat_map_app.
Qed.

(** The readers finish one after the other. *)
Lemma finishReaders_done (k : nat) :
  forall s : state A,
    Inv old new s ->
    writerInside (wpc s) = false ->
    (forall i, i < k -> is_Some (readers s !! i)) ->
    let s' := run new (finishReaders k) s in
    Inv old new s' /\
    wpc s' = wpc s /\
    (forall i rd, i < k -> readers s' !! i = Some rd -> rpc rd = RDone) /\
    (forall j, k <= j -> readers s' !! j = readers s !! j).
Proof.
  induction k as [| k IH]; intros s HI Hout Hsome.
  - simpl. split; [exact HI |]. split; [reflexivity |]. split; [| reflexivity].
    intros i rd Hlt. lia.
  - rewrite finishReaders_succ. cbv zeta. rewrite run_app.
    destruct (IH s HI Hout) as (HI1 & Hwpc1 & Hdone1 & Hrest1).
    { intros i Hlt. apply Hsome. lia. }
    set (s1 := run new (finishReaders k) s) in *.
    destruct (Hsome k) as [rdk Hk]; [lia |].
    rewrite <- (Hrest1 k) in Hk by lia.
    destruct (reader_steps 4 k s1 rdk HI1) as (HI2 & Hwpc2 & (rd' & Hk' & Hrank) & Hothers).
    { by rewrite Hwpc1. }
    { exact Hk. }
    split; [exact HI2 |]. split; [by rewrite Hwpc2 |]. split.
    + intros i rd Hlt Hi. destruct (decide (i = k)) as [-> | Hne].
      * rewrite Hk' in Hi. injection Hi as <-. apply rank_zero_done.
        pose proof (readerRank_bound (rpc rdk)). lia.
      * rewrite (Hothers i Hne) in Hi. apply (Hdone1 i rd); [lia | exact Hi].
    + intros j Hj. rewrite (Hothers j) by lia. apply Hrest1. lia.
Qed.

Lemma writerAdvance_readers (s : state A) : readers (writerAdvance new s) = readers s.
Proof.
  unfold writerAdvance. destruct (wpc s); try reflexivity.
  - by destruct (Lock (mu s)).
  - by destruct (Unlock (mu s)).
Qed.

Lemma writerAdvance_progress (s : state A) :
  Inv old new s ->
  writerInside (wpc s) = true ->
  writerRank (wpc (writerAdvance new s)) = pred (writerRank (wpc s)).
Proof.
  intros [Hc Hw He Ha Hr] Hin. unfold writerAdvance.
  destruct (wpc s) eqn:Hpc; try discriminate; try reflexivity.
  unfold Unlock. by rewrite Hw.
Qed.

Lemma writerAdvance_done (s : state A) : wpc s = WDone -> writerAdvance new s = s.
Proof. intros H. unfold writerAdvance. by rewrite H. Qed.

(** Once [Reconfigure] holds the lock it needs no other thread to end. *)
Lemma writer_steps (k : nat) :
  forall s : state A,
    Inv old new s ->
    wpc s <> WIdle ->
    writerRank (wpc s) <= k ->
    let s' := run new (replicate k WriterAdvance) s in
    Inv old new s' /\ wpc s' = WDone /\ readers s' = readers s.
Proof.
  induction k as [| k IH]; intros s HI Hidle Hrank.
  - simpl. split; [exact HI |]. split; [| reflexivity].
    destruct (wpc s); simpl in Hrank; try lia; reflexivity.
  - simpl. destruct (wpc s) eqn:Hpc; try (by destruct Hidle).
    + destruct (IH (writerAdvance new s)) as (HI' & Hd & Hr).
      * by apply LockingProofs.Inv_writerAdvance.
      * intros H. pose proof (writerAdvance_progress s HI) as Hp.
        rewrite Hpc, H in Hp. specialize (Hp eq_refl). discriminate.
      * pose proof (writerAdvance_progress s HI) as Hp. rewrite Hpc in Hp.
        rewrite (Hp eq_refl). simpl in *. lia.
      * split; [exact HI' |]. split; [exact Hd |]. by rewrite Hr, writerAdvance_readers.
    + destruct (IH (writerAdvance new s)) as (HI' & Hd & Hr).
      * by apply LockingProofs.Inv_writerAdvance.
      * intros H. pose proof (writerAdvance_progress s HI) as Hp.
        rewrite Hpc, H in Hp. specialize (Hp eq_refl). discriminate.
      * pose proof (writerAdvance_progress s HI) as Hp. rewrite Hpc in Hp.
        rewrite (Hp eq_refl). simpl in *. lia.
      * split; [exact HI' |]. split; [exact Hd |]. by rewrite Hr, writerAdvance_readers.
    + destruct (IH (writerAdvance new s)) as (HI' & Hd & Hr).
      * by apply LockingProofs.Inv_writerAdvance.
      * intros H. pose proof (writerAdvance_progress s HI) as Hp.
        rewrite Hpc, H in Hp. specialize (Hp eq_refl). discriminate.
      * pose proof (writerAdvance_progress s HI) as Hp. rewrite Hpc in Hp.
        rewrite (Hp eq_refl). simpl in *. lia.
      * split; [exact HI' |]. split; [exact Hd |]. by rewrite Hr, writerAdvance_readers.
    + rewrite (writerAdvance_done s Hpc).
      destruct (IH s HI) as (HI' & Hd & Hr).
      * by rewrite Hpc.
      * rewrite Hpc. simpl. lia.
      * by split.
Qed.

Lemma run_fixed (k : nat) (s : state A) :
  writerAdvance new s = s -> run new (replicate k WriterAdvance) s = s.
Proof. intros H. induction k as [| k IH]; simpl; [reflexivity |]. by rewrite H. Qed.

(** Four steps of [Reconfigure] end it, unless it is still waiting for
    the lock; in both cases it does not hold the lock afterwards. *)
Lemma writer_four (s : state A) :
  Inv old new s ->
  let s' := run new (replicate 4 WriterAdvance) s in
  Inv old new s' /\
  readers s' = readers s /\
  (wpc s' = WDone \/ wpc s' = WIdle) /\
  (inside (readers s) = 0 -> wpc s' = WDone).
Proof.
  intros HI. destruct (wpc s) eqn:Hpc.
  - destruct (Lock (mu s)) as [mu' |] eqn:HL.
    + assert (Hl : wpc (writerAdvance new s) = WLocked)
        by (unfold writerAdvance; by rewrite Hpc, HL).
      destruct (writer_steps 3 (writerAdvance new s)) as (HI' & Hd & Hr).
      * by apply LockingProofs.Inv_writerAdvance.
      * by rewrite Hl.
      * rewrite Hl. simpl. lia.
      * change (run new (replicate 4 WriterAdvance) s)
          with (run new (replicate 3 WriterAdvance) (writerAdvance new s)).
        split; [exact HI' |]. split; [by rewrite Hr, writerAdvance_readers |].
        split; [by left | by intros _].
    + assert (Hfix : writerAdvance new s = s)
        by (unfold writerAdvance; by rewrite Hpc, HL).
      cbv zeta. rewrite (run_fixed 4 s Hfix).
      split; [exact HI |]. split; [reflexivity |]. split; [by right |].
      intros Hzero. exfalso. destruct HI as [Hc Hw He Ha Hr].
      revert HL. unfold Lock. rewrite Hw, Hpc. simpl. by rewrite Hc, Hzero.
  - destruct (writer_steps 4 s HI) as (HI' & Hd & Hr).
    + by rewrite Hpc.
    + rewrite Hpc. simpl. lia.
    + split; [exact HI' |]. split; [exact Hr |]. split; [by left | by intros _].
  - destruct (writer_steps 4 s HI) as (HI' & Hd & Hr).
    + by rewrite Hpc.
    + rewrite Hpc. simpl. lia.
    + split; [exact HI' |]. split; [exact Hr |]. split; [by left | by intros _].
  - destruct (writer_steps 4 s HI) as (HI' & Hd & Hr).
    + by rewrite Hpc.
    + rewrite Hpc. simpl. lia.
    + split; [exact HI' |]. split; [exact Hr |]. split; [by left | by intros _].
  - destruct (writer_steps 4 s HI) as (HI' & Hd & Hr).
    + by rewrite Hpc.
    + rewrite Hpc. simpl. lia.
    + split; [exact HI' |]. split; [exact Hr |]. split; [by left | by intros _].
Qed.

Lemma readers_length_step (e : event) (s : state A) :
  length (readers (step new e s)) = length (readers s).
Proof.
  destruct e as [i | i |]; simpl.
  - unfold readerAdvance. destruct (readers s !! i) as [rd |]; [| reflexivity].
    destruct (rpc rd); try reflexivity; simpl; rewrite ?length_insert; try reflexivity.
    + destruct (RLock (mu s)); simpl; by rewrite ?length_insert.
    + destruct (RUnlock (mu s)); simpl; by rewrite ?length_insert.
  - unfold readerWork. destruct (readers s !! i) as [rd |]; [| reflexivity].
    destruct (rpc rd); try reflexivity. simpl. by rewrite length_insert.
  - by rewrite writerAdvance_readers.
Qed.

Lemma readers_length_run (schedule : list event) :
  forall s : state A, length (readers (run new schedule s)) = length (readers s).
Proof.
  induction schedule as [| e schedule IH]; intros s; [reflexivity |].
  simpl. by rewrite IH, readers_length_step.
Qed.

End Interleavings.

(** X21.  [Reconfigure] closes nothing but the old actual, and that at
    most once; and when the new actual is another service than the old one,
    no delegated call that holds the lock runs on a service that has been
    closed, in any interleaving. *)
Theorem no_call_runs_on_a_closed_actual
    (A : Type) (n : nat) (old new : A) (schedule : list event) :
  old <> new ->
  let s := run new schedule (init old n) in
  (closed s = [] \/ closed s = [old]) /\
  (forall i rd a,
      readers s !! i = Some rd ->
      readerInside rd = true ->
      target rd = Some a ->
      a ∉ closed s).
Proof.
  intros Hne s.
  pose proof (LockingProofs.Inv_run old new schedule _ (LockingProofs.Inv_init old new n)) as HI.
  pose proof (closedInv_run old new schedule _ (LockingProofs.Inv_init old new n) eq_refl) as Hcl.
  fold s in HI, Hcl. unfold closedInv in Hcl. split.
  - rewrite Hcl. destruct (closedYet (wpc s)); auto.
  - intros i rd a Hi Hin Ht. destruct HI as [Hc Hw He Ha Hr].
    pose proof (Forall_lookup_1 _ _ _ _ Hr Hi) as Hrd.
    rewrite Hcl. destruct (wpc s) eqn:Hpc; simpl in *; try apply not_elem_of_nil.
    + specialize (He Hw). rewrite Hc in He.
      rewrite (LockingProofs.inside_zero (readers s) i rd He Hi) in Hin. discriminate.
    + specialize (He Hw). rewrite Hc in He.
      rewrite (LockingProofs.inside_zero (readers s) i rd He Hi) in Hin. discriminate.
    + unfold readerInside, readerOk in *. rewrite Ha in Hrd.
      assert (Hnew : target rd = Some new -> a ∉ [old]).
      { intros Ht'. rewrite Ht' in Ht. injection Ht as <-.
        intros [Heq | Hnil]%elem_of_cons; [by apply Hne | by apply elem_of_nil in Hnil]. }
      destruct (rpc rd); try discriminate; destruct Hrd as [Ht' _];
        first [ by apply Hnew | rewrite Ht' in Ht; discriminate ].
Qed.

Lemma no_call_runs_on_a_closed_actual_witness :
  let s := run 2%nat
             [WriterAdvance; WriterAdvance; WriterAdvance; WriterAdvance;
              ReaderAdvance 0; ReaderAdvance 0; ReaderWork 0]
             (init 1%nat 1) in
  closed s = [1%nat] /\ 2%nat ∉ closed s.
Proof.
  intros s.
  destruct (no_call_runs_on_a_closed_actual nat 1 1%nat 2%nat
              [WriterAdvance; WriterAdvance; WriterAdvance; WriterAdvance;
               ReaderAdvance 0; ReaderAdvance 0; ReaderWork 0]) as [_ H].
  - discriminate.
  - split; [reflexivity |].
    apply (H 0%nat {| rpc := RCalling; target := Some 2%nat; seen := [2%nat] |} 2%nat);
      reflexivity.
Defined.

(** X22.  The locking cannot get stuck: from the state that any
    schedule leads to, the schedule [finish] lets every delegated call and
    the [Reconfigure] run to their end. *)
Theorem every_interleaving_can_complete
    (A : Type) (n : nat) (old new : A) (schedule : list event) :
  allDone (run new (schedule ++ finish n) (init old n)).
Proof.
  rewrite run_app. set (s := run new schedule (init old n)).
  assert (HI : Inv old new s)
    by apply (LockingProofs.Inv_run old new schedule _ (LockingProofs.Inv_init old new n)).
  assert (Hlen : length (readers s) = n).
  { unfold s. rewrite readers_length_run. simpl. apply length_replicate. }
  unfold finish. rewrite !run_app.
  destruct (writer_four old new s HI) as (HI1 & Hr1 & Hw1 & _).
  set (s1 := run new (replicate 4 WriterAdvance) s) in *.
  assert (Hout1 : writerInside (wpc s1) = false) by (destruct Hw1 as [-> | ->]; reflexivity).
  destruct (finishReaders_done old new n s1 HI1 Hout1) as (HI2 & Hw2 & Hdone2 & _).
  { intros i Hlt. apply lookup_lt_is_Some. rewrite Hr1. lia. }
  set (s2 := run new (finishReaders n) s1) in *.
  assert (Hlen2 : length (readers s2) = n).
  { unfold s2, s1. by rewrite !readers_length_run. }
  assert (Hall : Forall (fun rd => rpc rd = RDone) (readers s2)).
  { apply Forall_lookup_2. intros i rd Hi. apply (Hdone2 i rd); [| exact Hi].
    rewrite <- Hlen2. by eapply lookup_lt_Some. }
  destruct (writer_four old new s2 HI2) as (_ & Hr3 & _ & Hw3).
  split.
  - apply Hw3. by apply inside_all_done.
  - by rewrite Hr3.
Qed.

End LockingMoreProofs.
